(** * audio-share, server-core/src/win32/audio_manager_impl.cpp

    A shallow embedding of the WASAPI capture back end: format resolution
    ([set_format]), default-endpoint lookup ([get_default_endpoint]),
    endpoint enumeration ([get_endpoint_list]) and the loopback capture
    routine ([do_loopback_recording]) with its timer-paced do-while loop.

    The operating system is an oracle.  Every COM call of the source takes
    its HRESULT and its out-values from a "world" record, records itself in
    a trace of events, and [exit_on_failed] turns a failed HRESULT into
    process termination.  A routine is a value of the monad [M]: the trace
    it produced and how it ended.

    [spdlog::info] lines carry no control flow and are left out of the
    trace; [spdlog::warn] and [spdlog::error] lines are recorded.  The
    [#ifdef DEBUG] frame counter and the release of COM pointers,
    PROPVARIANTs and heap buffers have no part in what is proved here and
    are left out as well. *)

From Stdlib Require Import ZArith List String Ascii Bool Lia.
Import ListNotations.

Local Open Scope string_scope.
Local Open Scope list_scope.
Local Open Scope Z_scope.

(* ------------------------------------------------------------------ *)
(** ** Machine integers and Windows result codes *)

(** Conversion of an integer to a 32-bit two's complement [int]. *)
Definition to_int32 (z : Z) : Z := (z + 2^31) mod 2^32 - 2^31.

(** Reduction to an unsigned 32-bit [UINT32]. *)
Definition to_uint32 (z : Z) : Z := z mod 2^32.

(** HRESULT is a signed 32-bit [long]. *)
Definition HRESULT := Z.

(** winerror.h: [FAILED(hr)] is [hr < 0], [SUCCEEDED(hr)] is [hr >= 0]. *)
Definition FAILED (hr : HRESULT) : bool := hr <? 0.
Definition SUCCEEDED (hr : HRESULT) : bool := 0 <=? hr.

(** winerror.h: [HRESULT_CODE(hr)] is [hr & 0xFFFF]. *)
Definition HRESULT_CODE (hr : HRESULT) : Z := Z.land hr 65535.

Definition FACILITY_WIN32 : Z := 7.
Definition ERROR_NOT_FOUND : Z := 1168.

(** winerror.h: [HRESULT_FROM_WIN32(x)] is [x] when [x <= 0] and otherwise
    [(x & 0xFFFF) | (FACILITY_WIN32 << 16) | 0x80000000], as an HRESULT. *)
Definition HRESULT_FROM_WIN32 (x : Z) : HRESULT :=
  if x <=? 0 then x
  else to_int32 (Z.lor (Z.lor (Z.land x 65535) (Z.shiftl FACILITY_WIN32 16))
                       2147483648).

Definition S_OK : HRESULT := 0.
(** 0x80004005 *)
Definition E_FAIL : HRESULT := -2147467259.
(** 0x88890008, AUDCLNT_E_UNSUPPORTED_FORMAT *)
Definition AUDCLNT_E_UNSUPPORTED_FORMAT : HRESULT := -2004287480.

(* ------------------------------------------------------------------ *)
(** ** Wave formats (mmreg.h) and the protobuf AudioFormat message *)

Definition WAVE_FORMAT_UNKNOWN : Z := 0.
Definition WAVE_FORMAT_PCM : Z := 1.
Definition WAVE_FORMAT_IEEE_FLOAT : Z := 3.
Definition WAVE_FORMAT_EXTENSIBLE : Z := 65534.

Record GUID : Type := mkGUID {
  Data1 : Z;
  Data2 : Z;
  Data3 : Z;
  Data4 : list Z
}.

Fixpoint bytes_eqb (a b : list Z) : bool :=
  match a, b with
  | [], [] => true
  | x :: a', y :: b' => (x =? y) && bytes_eqb a' b'
  | _, _ => false
  end.

(** [IsEqualGUID] (and [operator==] on GUIDs) compares all 16 bytes. *)
Definition IsEqualGUID (a b : GUID) : bool :=
  (Data1 a =? Data1 b) && (Data2 a =? Data2 b) && (Data3 a =? Data3 b)
  && bytes_eqb (Data4 a) (Data4 b).

(** {0000000x-0000-0010-8000-00aa00389b71} *)
Definition ks_subtype (tag : Z) : GUID :=
  mkGUID tag 0 16 [128; 0; 0; 170; 0; 56; 155; 113].

Definition KSDATAFORMAT_SUBTYPE_PCM : GUID := ks_subtype 1.
Definition KSDATAFORMAT_SUBTYPE_ADPCM : GUID := ks_subtype 2.
Definition KSDATAFORMAT_SUBTYPE_IEEE_FLOAT : GUID := ks_subtype 3.

(** The buffer [GetMixFormat] hands out: a WAVEFORMATEX whose trailing
    bytes, when [wFormatTag] is [WAVE_FORMAT_EXTENSIBLE], are those of a
    WAVEFORMATEXTENSIBLE; the source reads [SubFormat] only in that case. *)
Record WAVEFORMATEX : Type := mkWAVEFORMATEX {
  wFormatTag : Z;
  nChannels : Z;
  nSamplesPerSec : Z;
  nAvgBytesPerSec : Z;
  nBlockAlign : Z;
  wBitsPerSample : Z;
  cbSize : Z;
  SubFormat : GUID
}.

Definition with_wFormatTag (f : WAVEFORMATEX) (tag : Z) : WAVEFORMATEX :=
  mkWAVEFORMATEX tag (nChannels f) (nSamplesPerSec f) (nAvgBytesPerSec f)
                 (nBlockAlign f) (wBitsPerSample f) (cbSize f) (SubFormat f).

(** Modelled from the spec: the generated protobuf message AudioFormat
    (client.pb.h is not part of the sources): four scalar fields with
    setters, the tag taking the values PCM, IEEE_FLOAT or Unknown.  The
    setters receive the WAVE_FORMAT_* numbers, so the tag is kept as the
    number, Unknown being [WAVE_FORMAT_UNKNOWN], the value of a message
    on which the tag was never set. *)
Record AudioFormat : Type := mkAudioFormat {
  format_tag : Z;
  channels : Z;
  sample_rate : Z;
  bits_per_sample : Z
}.

Definition fresh_AudioFormat : AudioFormat := mkAudioFormat 0 0 0 0.

Definition set_format_tag (m : AudioFormat) (v : Z) : AudioFormat :=
  mkAudioFormat v (channels m) (sample_rate m) (bits_per_sample m).
Definition set_channels (m : AudioFormat) (v : Z) : AudioFormat :=
  mkAudioFormat (format_tag m) v (sample_rate m) (bits_per_sample m).
Definition set_sample_rate (m : AudioFormat) (v : Z) : AudioFormat :=
  mkAudioFormat (format_tag m) (channels m) v (bits_per_sample m).
Definition set_bits_per_sample (m : AudioFormat) (v : Z) : AudioFormat :=
  mkAudioFormat (format_tag m) (channels m) (sample_rate m) v.

(* ------------------------------------------------------------------ *)
(** ** Events, outcomes and the monad of the routines *)

(** Wide strings as the OS returns them: UTF-16 code units. *)
Definition wstring := list N.

Inductive EDataFlow : Type := eRender | eCapture.

Definition EDataFlow_eqb (a b : EDataFlow) : bool :=
  match a, b with
  | eRender, eRender | eCapture, eCapture => true
  | _, _ => false
  end.

Definition AUDCLNT_STREAMFLAGS_LOOPBACK : Z := 131072.
Definition AUDCLNT_STREAMFLAGS_EVENTCALLBACK : Z := 262144.

(** The COM methods the file calls. *)
Inductive os_call : Type :=
| CoCreateInstance
| GetDevice (id : wstring)
| OpenPropertyStore
| GetValue
| Activate
| GetMixFormat
| GetDevicePeriod
| Initialize (flags : Z) (hnsBufferDuration : Z) (fmt : WAVEFORMATEX)
| GetBufferSize
| GetService
| Start
| Stop
| GetNextPacketSize
| GetBuffer
| ReleaseBuffer (frames : Z)
| EnumAudioEndpoints (flow : EDataFlow)
| GetCount
| Item (i : nat)
| GetId
| GetDefaultAudioEndpoint (flow : EDataFlow).

Inductive event : Type :=
| ECall (c : os_call) (hr : HRESULT)
| ETimerWait (duration : Z) (ec : Z)
| EBroadcast (count : Z) (block_align : Z)
| EWarn (msg : string)
| EError (msg : string).

Definition trace := list event.

(** How a routine ends. *)
Inductive outcome (A : Type) : Type :=
| Returned (a : A)
| Exited (code : Z)
| Waiting.

Arguments Returned {A} a.
Arguments Exited {A} code.
Arguments Waiting {A}.

(** [Returned a]: control comes back to the caller with [a].
    [Exited c]: [exit(c)] was called, the process is gone.
    [Waiting]: the routine sits in [timer.wait] and the world holds no
    further tick for it. *)
Definition returns_to_caller {A} (o : outcome A) : bool :=
  match o with Returned _ => true | _ => false end.

Definition M (A : Type) : Type := (trace * outcome A)%type.

Definition ret {A} (a : A) : M A := ([], Returned a).

Definition bind {A B} (m : M A) (k : A -> M B) : M B :=
  match m with
  | (t, Returned a) => let (t', o) := k a in (t ++ t', o)
  | (t, Exited c) => (t, Exited c)
  | (t, Waiting) => (t, Waiting)
  end.

Notation "x <- m ;; k" := (bind m (fun x => k))
  (at level 61, m at next level, right associativity).
Notation "m ;;; k" := (bind m (fun _ => k))
  (at level 61, right associativity).

Definition emit (e : event) : M unit := ([e], Returned tt).

(** A COM call: logged together with the HRESULT the world answers. *)
Definition call (c : os_call) (hr : HRESULT) : M HRESULT :=
  ([ECall c hr], Returned hr).

Definition exit_ {A} (code : Z) : M A := ([], Exited code).

(* ------------------------------------------------------------------ *)
(** ** The worlds: what the OS answers *)

(** One [get_default_endpoint] call: the answers to its three queries. *)
Record default_world : Type := mkDefaultWorld {
  dw_hr_create : HRESULT;
  dw_hr_default : HRESULT;
  dw_hr_get_id : HRESULT;
  dw_id : wstring
}.

(** One device of a collection: [Item], [GetId], [OpenPropertyStore] and
    [GetValue(PKEY_Device_FriendlyName)]. *)
Record device_world : Type := mkDeviceWorld {
  dev_hr_item : HRESULT;
  dev_hr_get_id : HRESULT;
  dev_id : wstring;
  dev_hr_open_props : HRESULT;
  dev_hr_get_value : HRESULT;
  dev_name : wstring
}.

(** One pass of [get_endpoint_list] over a data flow: the enumerator, the
    collection, its count, the default-endpoint query made in that pass
    and the devices by index. *)
Record pass_world : Type := mkPassWorld {
  pw_hr_create : HRESULT;
  pw_hr_enum : HRESULT;
  pw_hr_count : HRESULT;
  pw_count : nat;
  pw_default : default_world;
  pw_item : nat -> device_world
}.

Record enum_world : Type := mkEnumWorld {
  ew_default : default_world;
  ew_pass : EDataFlow -> pass_world
}.

(** One iteration of the capture loop.  [stopped_at_top] is the value of
    the flag [_stoppped] when the iteration begins, [stopped_at_cond] its
    value when the [while] condition reads it; the rest are the answers
    of the timer and of the capture client. *)
Record tick : Type := mkTick {
  stopped_at_top : bool;
  wait_ec : Z;
  hr_packet : HRESULT;
  next_packet_size : Z;
  hr_buffer : HRESULT;
  numFramesAvailable : Z;
  hr_release : HRESULT;
  stopped_at_cond : bool
}.

Record capture_world : Type := mkCaptureWorld {
  cw_hr_create : HRESULT;
  cw_hr_get_device : HRESULT;
  cw_hr_open_props : HRESULT;
  cw_hr_get_value : HRESULT;
  cw_hr_activate : HRESULT;
  cw_hr_mix_format : HRESULT;
  cw_mix_format : WAVEFORMATEX;
  cw_hr_device_period : HRESULT;
  cw_min_period : Z;
  cw_hr_initialize : Z -> HRESULT;
  cw_hr_buffer_size : HRESULT;
  cw_hr_service : HRESULT;
  cw_hr_start : HRESULT;
  cw_hr_stop : HRESULT;
  cw_ticks : list tick
}.

(** Lines 99-105 of [do_loopback_recording]: an extensible mix format whose
    sub-format is IEEE float has its tag overwritten in place. *)
Definition handle_extensible (pCaptureFormat : WAVEFORMATEX) : WAVEFORMATEX :=
  if wFormatTag pCaptureFormat =? WAVE_FORMAT_EXTENSIBLE then
    if IsEqualGUID (SubFormat pCaptureFormat) KSDATAFORMAT_SUBTYPE_IEEE_FLOAT
    then with_wFormatTag pCaptureFormat WAVE_FORMAT_IEEE_FLOAT
    else pCaptureFormat
  else pCaptureFormat.

Definition endpoint_list_t := list (string * string).

Inductive loop_ctl : Type := ToCondition | Break.

Definition REFTIMES_PER_SEC : Z := 10000000.
Definition REFTIMES_PER_MILLISEC : Z := 10000.

(* ------------------------------------------------------------------ *)
(** ** Observations on traces *)

(** [GetDefaultAudioEndpoint] answering ERROR_NOT_FOUND is the one failed
    HRESULT the file does not pass to [exit_on_failed]. *)
Definition tolerated_not_found (c : os_call) (hr : HRESULT) : bool :=
  match c with
  | GetDefaultAudioEndpoint _ => hr =? HRESULT_FROM_WIN32 ERROR_NOT_FOUND
  | _ => false
  end.

(** An OS query that failed, the tolerated answer apart. *)
Definition failed_query (e : event) : bool :=
  match e with
  | ECall c hr => FAILED hr && negb (tolerated_not_found c hr)
  | _ => false
  end.

Definition is_error (e : event) : bool :=
  match e with EError _ => true | _ => false end.

Definition is_log (e : event) : bool :=
  match e with EError _ | EWarn _ => true | _ => false end.

(** No failed query and no error line. *)
Definition clean (t : trace) : bool :=
  forallb (fun e => negb (failed_query e) && negb (is_error e)) t.

(** The index a scan of the ids [ids], numbered from [i], leaves in
    [default_index]: that of the last id equal to [default_id], as an
    [int], or [acc] when there is none. *)
Fixpoint last_match (default_id : string) (ids : list string) (i : nat)
    (acc : Z) : Z :=
  match ids with
  | [] => acc
  | id :: more =>
      last_match default_id more (S i)
        (if String.eqb id default_id then to_int32 (Z.of_nat i) else acc)
  end.


(** Operations on the capture buffer: the packet-size poll, acquire, the
    sink call and release. *)
Definition is_buffer_op (e : event) : bool :=
  match e with
  | ECall GetNextPacketSize _ | ECall GetBuffer _
  | ECall (ReleaseBuffer _) _ | EBroadcast _ _ => true
  | _ => false
  end.

Definition buffer_ops (t : trace) : trace := filter is_buffer_op t.

Definition is_acquire (e : event) : bool :=
  match e with ECall GetBuffer hr => SUCCEEDED hr | _ => false end.

Definition is_release (e : event) : bool :=
  match e with ECall (ReleaseBuffer _) _ => true | _ => false end.

Definition acquires (t : trace) : nat := List.length (filter is_acquire t).
Definition releases (t : trace) : nat := List.length (filter is_release t).

(** Ownership of the capture buffer along a trace: a successful
    [GetBuffer] takes it (never while it is held), the sink is called only
    while it is held, [ReleaseBuffer] gives it back (only when held). *)
Definition buffer_step (held : bool) (e : event) : option bool :=
  match e with
  | ECall GetBuffer hr =>
      if SUCCEEDED hr then (if held then None else Some true) else Some held
  | EBroadcast _ _ => if held then Some held else None
  | ECall (ReleaseBuffer _) _ => if held then Some false else None
  | _ => Some held
  end.

Fixpoint buffer_state (held : bool) (t : trace) : option bool :=
  match t with
  | [] => Some held
  | e :: t' =>
      match buffer_step held e with
      | Some held' => buffer_state held' t'
      | None => None
      end
  end.

(** Every acquire is followed by its release and nothing is held at the
    end of the trace. *)
Definition acquire_release_paired (t : trace) : bool :=
  match buffer_state false t with
  | Some false => true
  | _ => false
  end.

(** The stream was started: [Start] succeeded, the loop is entered. *)
Definition reached_running (t : trace) : bool :=
  existsb (fun e => match e with
                    | ECall Start hr => SUCCEEDED hr
                    | _ => false
                    end) t.

(** The [Initialize] attempts of a trace: flags, format and answer. *)
Fixpoint initialize_calls (t : trace) : list (Z * WAVEFORMATEX * HRESULT) :=
  match t with
  | [] => []
  | ECall (Initialize flags _ fmt) hr :: t' =>
      (flags, fmt, hr) :: initialize_calls t'
  | _ :: t' => initialize_calls t'
  end.

(** The calls of the start-up before [Initialize] all succeed. *)
Definition pre_init_ok (w : capture_world) : bool :=
  SUCCEEDED (cw_hr_create w) && SUCCEEDED (cw_hr_get_device w)
  && SUCCEEDED (cw_hr_open_props w) && SUCCEEDED (cw_hr_get_value w)
  && SUCCEEDED (cw_hr_activate w) && SUCCEEDED (cw_hr_mix_format w)
  && SUCCEEDED (cw_hr_device_period w).

(** The calls between [Initialize] and the loop all succeed. *)
Definition post_init_ok (w : capture_world) : bool :=
  SUCCEEDED (cw_hr_buffer_size w) && SUCCEEDED (cw_hr_service w)
  && SUCCEEDED (cw_hr_start w).

(** One of the two [Initialize] attempts succeeds. *)
Definition init_ok (w : capture_world) : bool :=
  SUCCEEDED (cw_hr_initialize w AUDCLNT_STREAMFLAGS_LOOPBACK)
  || SUCCEEDED (cw_hr_initialize w AUDCLNT_STREAMFLAGS_EVENTCALLBACK).

Definition startup_ok (w : capture_world) : bool :=
  pre_init_ok w && init_ok w && post_init_ok w.

(** The tick runs to the [while] condition: the timer fires and no call
    of the body fails. *)
Definition tick_completes (t : tick) : bool :=
  (wait_ec t =? 0) && SUCCEEDED (hr_packet t)
  && ((next_packet_size t =? 0)
      || SUCCEEDED (hr_buffer t) && SUCCEEDED (hr_release t)).

(** The tick runs to the condition and the flag is read clear there. *)
Definition keeps_running (t : tick) : bool :=
  tick_completes t && negb (stopped_at_cond t).


Definition with_stopped_at_top (b : bool) (t : tick) : tick :=
  mkTick b (wait_ec t) (hr_packet t) (next_packet_size t) (hr_buffer t)
         (numFramesAvailable t) (hr_release t) (stopped_at_cond t).

Definition with_ticks (w : capture_world) (ticks : list tick) : capture_world :=
  mkCaptureWorld (cw_hr_create w) (cw_hr_get_device w) (cw_hr_open_props w)
    (cw_hr_get_value w) (cw_hr_activate w) (cw_hr_mix_format w)
    (cw_mix_format w) (cw_hr_device_period w) (cw_min_period w)
    (cw_hr_initialize w) (cw_hr_buffer_size w) (cw_hr_service w)
    (cw_hr_start w) (cw_hr_stop w) ticks.

(* ------------------------------------------------------------------ *)
(** ** Sample data: formats, ticks and worlds used to run the routines *)

(** The conversions restricted to 8-bit text. *)
Definition wide (s : string) : wstring :=
  map N_of_ascii (list_ascii_of_string s).
Definition narrow (ws : wstring) : string :=
  string_of_list_ascii (map ascii_of_N ws).
Definition win_err_text (code : Z) : wstring :=
  if code =? ERROR_NOT_FOUND then wide "Element not found."
  else wide "Unspecified error".

Definition GUID_NULL : GUID := mkGUID 0 0 0 [0; 0; 0; 0; 0; 0; 0; 0].

(** 16-bit stereo PCM at 48 kHz, 4 bytes per frame. *)
Definition pcm16_stereo : WAVEFORMATEX :=
  mkWAVEFORMATEX WAVE_FORMAT_PCM 2 48000 192000 4 16 0 GUID_NULL.

(** An extensible 32-bit stereo format with the given sub-format. *)
Definition extensible_stereo (sub : GUID) : WAVEFORMATEX :=
  mkWAVEFORMATEX WAVE_FORMAT_EXTENSIBLE 2 48000 384000 8 32 22 sub.

(** A message that already carries the PCM tag of an earlier session. *)
Definition pcm_AudioFormat : AudioFormat := mkAudioFormat WAVE_FORMAT_PCM 2 44100 16.

(** A tick on which everything succeeds, [n] frames are pending and
    [GetBuffer] hands out those [n] frames; [stop] is the flag, unchanged
    over the tick. *)
Definition packet_tick (stop : bool) (n : Z) : tick :=
  mkTick stop 0 S_OK n S_OK n S_OK stop.

(** A tick whose timer wait fails with error value [ec]. *)
Definition timer_failure_tick (ec : Z) : tick :=
  mkTick false ec S_OK 0 S_OK 0 S_OK false.

(** A capture world in which every call other than [Initialize]
    succeeds. *)
Definition capture_world_with (fmt : WAVEFORMATEX) (init : Z -> HRESULT)
    (ticks : list tick) : capture_world :=
  mkCaptureWorld S_OK S_OK S_OK S_OK S_OK S_OK fmt S_OK 30000 init
                 S_OK S_OK S_OK S_OK ticks.

Definition init_always_ok (flags : Z) : HRESULT := S_OK.
Definition init_never_ok (flags : Z) : HRESULT := AUDCLNT_E_UNSUPPORTED_FORMAT.
Definition init_fallback_only (flags : Z) : HRESULT :=
  if flags =? AUDCLNT_STREAMFLAGS_LOOPBACK then AUDCLNT_E_UNSUPPORTED_FORMAT
  else S_OK.

(** Loopback initialization is rejected, the fallback is accepted. *)
Definition fallback_capture_world : capture_world :=
  capture_world_with pcm16_stereo init_fallback_only
                     (map (packet_tick false) [0; 480; 0; 960]).

(** Both initializations are rejected. *)
Definition failing_capture_world : capture_world :=
  capture_world_with pcm16_stereo init_never_ok
                     (map (packet_tick false) [0; 480; 0; 960]).

(** The flag is set before the capture starts and stays set. *)
Definition stopped_early_world : capture_world :=
  capture_world_with pcm16_stereo init_always_ok
                     [packet_tick true 480; packet_tick true 480].

(** A tick during which the flag becomes set: clear at its top, set at its
    condition. *)
Definition stopping_tick (n : Z) : tick :=
  mkTick false 0 S_OK n S_OK n S_OK true.

Definition stop_during_second_tick : capture_world :=
  capture_world_with pcm16_stereo init_always_ok
                     [packet_tick false 0; stopping_tick 480;
                      packet_tick true 960].

(** The timer wait of the second tick fails with 995
    (ERROR_OPERATION_ABORTED). *)
Definition timer_fails_world : capture_world :=
  capture_world_with pcm16_stereo init_always_ok
                     [packet_tick false 480; timer_failure_tick 995;
                      packet_tick false 480].

(** An extensible format whose sub-format is neither PCM nor float. *)
Definition adpcm_extensible : WAVEFORMATEX :=
  extensible_stereo KSDATAFORMAT_SUBTYPE_ADPCM.

(** Default-endpoint worlds: a default render device with the given id,
    and no render device at all. *)
Definition default_is (id : string) : default_world :=
  mkDefaultWorld S_OK S_OK S_OK (wide id).
Definition default_absent : default_world :=
  mkDefaultWorld S_OK (HRESULT_FROM_WIN32 ERROR_NOT_FOUND) S_OK [].

Definition device (id name : string) : device_world :=
  mkDeviceWorld S_OK S_OK (wide id) S_OK S_OK (wide name).

Definition no_device : device_world := mkDeviceWorld E_FAIL E_FAIL [] E_FAIL E_FAIL [].

Definition collection (dflt : default_world) (devs : list device_world)
  : pass_world :=
  mkPassWorld S_OK S_OK S_OK (List.length devs) dflt
              (fun i => nth i devs no_device).

(** Two speakers, the second one the default, and one microphone. *)
Definition two_speakers_one_mic : enum_world :=
  mkEnumWorld (default_is "spk1")
    (fun flow =>
       match flow with
       | eRender =>
           collection (default_is "spk1")
                      [device "spk0" "Monitor"; device "spk1" "Headset"]
       | eCapture =>
           collection (default_is "spk1") [device "mic0" "Microphone"]
       end).

(** The same machine on which [EnumAudioEndpoints] fails for playback. *)
Definition enumeration_fails : enum_world :=
  mkEnumWorld (default_is "spk1")
    (fun flow =>
       mkPassWorld S_OK E_FAIL S_OK 0 (default_is "spk1") (fun _ => no_device)).

(** A device whose minimum period is half a millisecond (5000 units of
    100 ns). *)
Definition sub_millisecond_world : capture_world :=
  mkCaptureWorld S_OK S_OK S_OK S_OK S_OK S_OK pcm16_stereo S_OK 5000
                 init_always_ok S_OK S_OK S_OK S_OK [packet_tick true 480].

(** winerror.h: ERROR_NOT_ENOUGH_MEMORY. *)
Definition ERROR_NOT_ENOUGH_MEMORY : Z := 8.

(* ------------------------------------------------------------------ *)
(** ** The routines *)

Section Routines.

(** The code-page conversions and [FormatMessageW] are OS services. *)
Variable wchars_to_mbs : wstring -> string.
Variable wchars_to_utf8 : wstring -> string.
Variable mbs_to_wchars : string -> wstring.
Variable wstr_win_err : Z -> wstring.

(** The line [spdlog::error("exit_on_failed {} {} {}", func, message, text)]. *)
Definition error_line (hr : HRESULT) (message func : string) : string :=
  String.append "exit_on_failed "
    (String.append func
       (String.append " "
          (String.append message
             (String.append " "
                (wchars_to_utf8 (wstr_win_err (HRESULT_CODE hr))))))).

Definition exit_on_failed (hr : HRESULT) (message func : string) : M unit :=
  if FAILED hr then
    emit (EError (error_line hr message func)) ;;;
    exit_ (-1)
  else ret tt.

Definition set_format (_format : AudioFormat) (format : WAVEFORMATEX)
  : M AudioFormat :=
  let _format :=
    if (wFormatTag format =? WAVE_FORMAT_PCM)
       || (wFormatTag format =? WAVE_FORMAT_IEEE_FLOAT)
    then set_format_tag _format (wFormatTag format)
    else if wFormatTag format =? WAVE_FORMAT_EXTENSIBLE then
      if IsEqualGUID (SubFormat format) KSDATAFORMAT_SUBTYPE_PCM
      then set_format_tag _format WAVE_FORMAT_PCM
      else if IsEqualGUID (SubFormat format) KSDATAFORMAT_SUBTYPE_IEEE_FLOAT
      then set_format_tag _format WAVE_FORMAT_IEEE_FLOAT
      else _format
    else _format in
  let _format := set_channels _format (nChannels format) in
  let _format := set_sample_rate _format (nSamplesPerSec format) in
  let _format := set_bits_per_sample _format (wBitsPerSample format) in
  ret _format.

Definition get_default_endpoint (w : default_world) : M string :=
  hr <- call CoCreateInstance (dw_hr_create w) ;;
  exit_on_failed hr "" "" ;;;
  hr <- call (GetDefaultAudioEndpoint eRender) (dw_hr_default w) ;;
  if hr =? HRESULT_FROM_WIN32 ERROR_NOT_FOUND then ret ""
  else
    exit_on_failed hr "" "" ;;;
    hr <- call GetId (dw_hr_get_id w) ;;
    exit_on_failed hr "" "" ;;;
    ret (wchars_to_mbs (dw_id w)).

(** The body of the inner [for (UINT i = 0; i < count; ++i)]. *)
Definition endpoint_body (data_flow : EDataFlow) (d : device_world)
    (default_id : string) (i : nat) (st : endpoint_list_t * Z)
  : M (endpoint_list_t * Z) :=
  let '(endpoint_list, default_index) := st in
  hr <- call (Item i) (dev_hr_item d) ;;
  exit_on_failed hr "" "" ;;;
  hr <- call GetId (dev_hr_get_id d) ;;
  exit_on_failed hr "" "" ;;;
  hr <- call OpenPropertyStore (dev_hr_open_props d) ;;
  exit_on_failed hr "" "" ;;;
  hr <- call GetValue (dev_hr_get_value d) ;;
  exit_on_failed hr "" "" ;;;
  let endpoint_id := wchars_to_mbs (dev_id d) in
  let endpoint_name := wchars_to_mbs (dev_name d) in
  let label :=
    if EDataFlow_eqb data_flow eRender then "[Playback]" else "[Recording]" in
  let endpoint_list :=
    endpoint_list
      ++ [(endpoint_id, String.append label (String.append " " endpoint_name))] in
  let default_index :=
    if String.eqb endpoint_id default_id then to_int32 (Z.of_nat i)
    else default_index in
  ret (endpoint_list, default_index).

(** The inner loop, [n] iterations left, at index [i]. *)
Fixpoint endpoint_loop (data_flow : EDataFlow) (item : nat -> device_world)
    (default_id : string) (n i : nat) (st : endpoint_list_t * Z)
  : M (endpoint_list_t * Z) :=
  match n with
  | O => ret st
  | S n' =>
      st' <- endpoint_body data_flow (item i) default_id i st ;;
      endpoint_loop data_flow item default_id n' (S i) st'
  end.

(** The body of [for (EDataFlow data_flow : data_flows)]. *)
Definition flow_body (w : enum_world) (data_flow : EDataFlow)
    (st : endpoint_list_t * Z) : M (endpoint_list_t * Z) :=
  let pw := ew_pass w data_flow in
  hr <- call CoCreateInstance (pw_hr_create pw) ;;
  exit_on_failed hr "" "" ;;;
  hr <- call (EnumAudioEndpoints data_flow) (pw_hr_enum pw) ;;
  exit_on_failed hr "" "" ;;;
  hr <- call GetCount (pw_hr_count pw) ;;
  exit_on_failed hr "" "" ;;;
  let count := pw_count pw in
  let default_index := -1 in
  default_id <- get_default_endpoint (pw_default pw) ;;
  endpoint_loop data_flow (pw_item pw) default_id count 0%nat
                (fst st, default_index).

Fixpoint flow_loop (w : enum_world) (data_flows : list EDataFlow)
    (st : endpoint_list_t * Z) : M (endpoint_list_t * Z) :=
  match data_flows with
  | [] => ret st
  | data_flow :: more =>
      st' <- flow_body w data_flow st ;;
      flow_loop w more st'
  end.

(** [endpoint_list] is an in-out reference: the result pairs the returned
    index with the list as the call leaves it. *)
Definition get_endpoint_list (w : enum_world) (endpoint_list : endpoint_list_t)
  : M (Z * endpoint_list_t) :=
  let data_flows := [eRender; eCapture] in
  let default_index := -1 in
  default_id <- get_default_endpoint (ew_default w) ;;
  st <- flow_loop w data_flows (endpoint_list, default_index) ;;
  ret (snd st, fst st).

(** The body of the [do { ... } while (!_stoppped)] loop, up to the point
    where control leaves it: to the condition (fall-through or [continue])
    or out of the loop ([break]). *)
Definition loop_body (duration : Z) (pCaptureFormat : WAVEFORMATEX) (t : tick)
  : M loop_ctl :=
  emit (ETimerWait duration (wait_ec t)) ;;;
  if negb (wait_ec t =? 0) then ret Break
  else
    hr <- call GetNextPacketSize (hr_packet t) ;;
    exit_on_failed hr "pCaptureClient->GetNextPacketSize" "" ;;;
    if next_packet_size t =? 0 then ret ToCondition
    else
      hr <- call GetBuffer (hr_buffer t) ;;
      exit_on_failed hr "pCaptureClient->GetBuffer" "" ;;;
      let bytes_per_frame := nBlockAlign pCaptureFormat in
      let count :=
        to_int32 (to_uint32 (numFramesAvailable t * bytes_per_frame)) in
      emit (EBroadcast count (nBlockAlign pCaptureFormat)) ;;;
      hr <- call (ReleaseBuffer (numFramesAvailable t)) (hr_release t) ;;
      exit_on_failed hr "pCaptureClient->ReleaseBuffer" "" ;;;
      ret ToCondition.

(** The do-while loop over the ticks the world supplies. *)
Fixpoint capture_loop (duration : Z) (pCaptureFormat : WAVEFORMATEX)
    (ticks : list tick) : M unit :=
  match ticks with
  | [] => ([], Waiting)
  | t :: later =>
      c <- loop_body duration pCaptureFormat t ;;
      match c with
      | Break => ret tt
      | ToCondition =>
          if negb (stopped_at_cond t)
          then capture_loop duration pCaptureFormat later
          else ret tt
      end
  end.

(** Lines 60-151 of [do_loopback_recording], everything before the loop:
    the device is opened, its mix format resolved through [set_format],
    the stream initialized and started.  It leaves the three locals the
    loop reads: the member [_format] as written, [pCaptureFormat] and the
    tick [duration] in milliseconds. *)
Definition start_capture_stream (w : capture_world) (_format : AudioFormat)
    (endpoint_id : string) : M (AudioFormat * WAVEFORMATEX * Z) :=
  hr <- call CoCreateInstance (cw_hr_create w) ;;
  exit_on_failed hr "Failed to create IMMDeviceEnumerator" "" ;;;
  hr <- call (GetDevice (mbs_to_wchars endpoint_id)) (cw_hr_get_device w) ;;
  exit_on_failed hr "Failed to get audio endpoint device" "" ;;;
  hr <- call OpenPropertyStore (cw_hr_open_props w) ;;
  exit_on_failed hr "Failed to open property store" "" ;;;
  hr <- call GetValue (cw_hr_get_value w) ;;
  exit_on_failed hr "Failed to get device friendly name" "" ;;;
  hr <- call Activate (cw_hr_activate w) ;;
  exit_on_failed hr "Failed to activate IAudioClient" "" ;;;
  hr <- call GetMixFormat (cw_hr_mix_format w) ;;
  exit_on_failed hr "Failed to get mix format" "" ;;;
  let pCaptureFormat := handle_extensible (cw_mix_format w) in
  _format <- set_format _format pCaptureFormat ;;
  hr <- call GetDevicePeriod (cw_hr_device_period w) ;;
  exit_on_failed hr "Failed to get device period" "" ;;;
  let hnsMinimumDevicePeriod := cw_min_period w in
  let hnsRequestedDuration := 5 * REFTIMES_PER_SEC in
  hr <- call (Initialize AUDCLNT_STREAMFLAGS_LOOPBACK hnsRequestedDuration
                         pCaptureFormat)
             (cw_hr_initialize w AUDCLNT_STREAMFLAGS_LOOPBACK) ;;
  (if FAILED hr then
     emit (EWarn "Loopback initialization failed, trying with EVENTCALLBACK flag") ;;;
     hr <- call (Initialize AUDCLNT_STREAMFLAGS_EVENTCALLBACK
                            hnsRequestedDuration pCaptureFormat)
                (cw_hr_initialize w AUDCLNT_STREAMFLAGS_EVENTCALLBACK) ;;
     exit_on_failed hr "Failed to initialize audio client for loopback" ""
   else ret tt) ;;;
  hr <- call GetBufferSize (cw_hr_buffer_size w) ;;
  exit_on_failed hr "Failed to get buffer size" "" ;;;
  hr <- call GetService (cw_hr_service w) ;;
  exit_on_failed hr "Failed to get IAudioCaptureClient" "" ;;;
  hr <- call Start (cw_hr_start w) ;;
  exit_on_failed hr "Failed to start audio client" "" ;;;
  let duration := Z.quot hnsMinimumDevicePeriod REFTIMES_PER_MILLISEC in
  ret (_format, pCaptureFormat, duration).

(** [do_loopback_recording]: the start-up, the loop, then [Stop], whose
    HRESULT is not looked at.  [_format] is the member the routine writes;
    the result is its value when the routine returns. *)
Definition do_loopback_recording (w : capture_world) (_format : AudioFormat)
    (endpoint_id : string) : M AudioFormat :=
  locals <- start_capture_stream w _format endpoint_id ;;
  let '(_format, pCaptureFormat, duration) := locals in
  capture_loop duration pCaptureFormat (cw_ticks w) ;;;
  call Stop (cw_hr_stop w) ;;;
  ret _format.

(* ------------------------------------------------------------------ *)
(** ** Definitions used in the statements *)

(** The shape of every run of the enumeration code: either it returns and
    no query failed, or it exits with code -1 right after the first failed
    query and the error line written for it. *)
Definition disciplined {A} (m : M A) : Prop :=
  match snd m with
  | Returned _ => clean (fst m) = true
  | Exited code =>
      code = -1 /\
      exists t0 c hr,
        fst m = t0 ++ [ECall c hr; EError (error_line hr "" "")] /\
        FAILED hr = true /\ tolerated_not_found c hr = false /\
        clean t0 = true
  | Waiting => False
  end.

(** The ids of the recording collection, in enumeration order, as
    [get_endpoint_list] compares them. *)
Definition recording_ids (w : enum_world) : list string :=
  map (fun k => wchars_to_mbs (dev_id (pw_item (ew_pass w eCapture) k)))
      (seq 0 (pw_count (ew_pass w eCapture))).

(** A trace put in front of a run. *)
Definition prepend {A} (t : trace) (m : M A) : M A := (t ++ fst m, snd m).

(** The calls made before [Initialize] when they all succeed. *)
Definition pre_init_trace (w : capture_world) (endpoint_id : string) : trace :=
  [ECall CoCreateInstance (cw_hr_create w);
   ECall (GetDevice (mbs_to_wchars endpoint_id)) (cw_hr_get_device w);
   ECall OpenPropertyStore (cw_hr_open_props w);
   ECall GetValue (cw_hr_get_value w);
   ECall Activate (cw_hr_activate w);
   ECall GetMixFormat (cw_hr_mix_format w);
   ECall GetDevicePeriod (cw_hr_device_period w)].

(** The start-up from [GetBufferSize] on. *)
Definition finish_start (w : capture_world) (f : AudioFormat)
  : M (AudioFormat * WAVEFORMATEX * Z) :=
  hr <- call GetBufferSize (cw_hr_buffer_size w) ;;
  exit_on_failed hr "Failed to get buffer size" "" ;;;
  hr <- call GetService (cw_hr_service w) ;;
  exit_on_failed hr "Failed to get IAudioCaptureClient" "" ;;;
  hr <- call Start (cw_hr_start w) ;;
  exit_on_failed hr "Failed to start audio client" "" ;;;
  ret (f, handle_extensible (cw_mix_format w),
       Z.quot (cw_min_period w) REFTIMES_PER_MILLISEC).

Definition loopback_attempt (w : capture_world) : event :=
  ECall (Initialize AUDCLNT_STREAMFLAGS_LOOPBACK (5 * REFTIMES_PER_SEC)
                    (handle_extensible (cw_mix_format w)))
        (cw_hr_initialize w AUDCLNT_STREAMFLAGS_LOOPBACK).

Definition fallback_attempt (w : capture_world) : event :=
  ECall (Initialize AUDCLNT_STREAMFLAGS_EVENTCALLBACK (5 * REFTIMES_PER_SEC)
                    (handle_extensible (cw_mix_format w)))
        (cw_hr_initialize w AUDCLNT_STREAMFLAGS_EVENTCALLBACK).

Definition fallback_warning : event :=
  EWarn "Loopback initialization failed, trying with EVENTCALLBACK flag".

(** Runs that make no [Initialize] call. *)
Definition no_initialize {A} (m : M A) : Prop := initialize_calls (fst m) = [].

(** The byte count line 176 computes: the product is taken in [UINT32]
    and stored in an [int]. *)
Definition delivered_count (fmt : WAVEFORMATEX) (t : tick) : Z :=
  to_int32 (to_uint32 (numFramesAvailable t * nBlockAlign fmt)).

(** The events of the ticks [ticks], each run to its end. *)
Definition ticks_trace (d : Z) (fmt : WAVEFORMATEX) (ticks : list tick)
  : trace :=
  flat_map (fun t => fst (loop_body d fmt t)) ticks.


(** The two locals the loop reads from the start-up. *)
Definition capture_format (w : capture_world) : WAVEFORMATEX :=
  handle_extensible (cw_mix_format w).
Definition tick_duration (w : capture_world) : Z :=
  Z.quot (cw_min_period w) REFTIMES_PER_MILLISEC.

(** Runs that hold no buffer when they end, and never acquire, deliver or
    release out of turn. *)
Definition releases_what_it_takes {A} (m : M A) : Prop :=
  buffer_state false (fst m) = Some false.

(* ------------------------------------------------------------------ *)
(** ** Further definitions: formats, default endpoint, enumeration *)

(** The tags a resolved AudioFormat is meant to carry. *)
Definition canonical_tag (tag : Z) : bool :=
  (tag =? WAVE_FORMAT_UNKNOWN) || (tag =? WAVE_FORMAT_PCM)
  || (tag =? WAVE_FORMAT_IEEE_FLOAT).

Definition is_get_id (e : event) : bool :=
  match e with ECall GetId _ => true | _ => false end.

Definition is_stop (e : event) : bool :=
  match e with ECall Stop _ => true | _ => false end.

(** The string [get_default_endpoint] hands back when it returns. *)
Definition default_id_of (dw : default_world) : string :=
  if dw_hr_default dw =? HRESULT_FROM_WIN32 ERROR_NOT_FOUND then ""
  else wchars_to_mbs (dw_id dw).

(** The answers on which [get_default_endpoint] returns. *)
Definition default_returns (dw : default_world) : bool :=
  SUCCEEDED (dw_hr_create dw)
  && ((dw_hr_default dw =? HRESULT_FROM_WIN32 ERROR_NOT_FOUND)
      || SUCCEEDED (dw_hr_default dw) && SUCCEEDED (dw_hr_get_id dw)).

(** The four queries made on a device all succeed. *)
Definition device_ok (d : device_world) : bool :=
  SUCCEEDED (dev_hr_item d) && SUCCEEDED (dev_hr_get_id d)
  && SUCCEEDED (dev_hr_open_props d) && SUCCEEDED (dev_hr_get_value d).

(** The pair line 246 pushes for a device: its id and its labelled name. *)
Definition endpoint_entry (data_flow : EDataFlow) (d : device_world)
  : string * string :=
  (wchars_to_mbs (dev_id d),
   String.append
     (if EDataFlow_eqb data_flow eRender then "[Playback]" else "[Recording]")
     (String.append " " (wchars_to_mbs (dev_name d)))).

(** The pairs of a whole collection, in index order. *)
Definition pass_entries (data_flow : EDataFlow) (pw : pass_world)
  : endpoint_list_t :=
  map (fun k => endpoint_entry data_flow (pw_item pw k))
      (seq 0 (pw_count pw)).

(** Every query of a pass succeeds (ERROR_NOT_FOUND on the default query
    counting as success). *)
Definition pass_ok (pw : pass_world) : bool :=
  SUCCEEDED (pw_hr_create pw) && SUCCEEDED (pw_hr_enum pw)
  && SUCCEEDED (pw_hr_count pw) && default_returns (pw_default pw)
  && forallb (fun k => device_ok (pw_item pw k)) (seq 0 (pw_count pw)).

Definition enumeration_ok (w : enum_world) : bool :=
  default_returns (ew_default w) && pass_ok (ew_pass w eRender)
  && pass_ok (ew_pass w eCapture).

(** The same machine with another answer to the query of line 202. *)
Definition with_first_default (w : enum_world) (dw : default_world)
  : enum_world :=
  mkEnumWorld dw (ew_pass w).

(* ------------------------------------------------------------------ *)
(** ** Further definitions: the capture routine *)

(** The two calls whose HRESULT [do_loopback_recording] does not hand to
    [exit_on_failed]: the loopback [Initialize], answered by the
    fallback, and [Stop]. *)
Definition unchecked_call (c : os_call) : bool :=
  match c with
  | Initialize flags _ _ => flags =? AUDCLNT_STREAMFLAGS_LOOPBACK
  | Stop => true
  | _ => false
  end.

(** A checked call that failed. *)
Definition capture_failed (e : event) : bool :=
  match e with
  | ECall c hr => FAILED hr && negb (unchecked_call c)
  | _ => false
  end.

(** No checked call failed and no error line was written. *)
Definition capture_clean (t : trace) : bool :=
  forallb (fun e => negb (capture_failed e) && negb (is_error e)) t.

(** The shape of every run of the capture routine: as long as it has not
    exited no checked call has failed; when it exits, it does so with
    code -1 right after the first failed checked call and a line that
    names it. *)
Definition exits_at_first_failure {A} (m : M A) : Prop :=
  match snd m with
  | Returned _ | Waiting => capture_clean (fst m) = true
  | Exited code =>
      code = -1 /\
      exists t0 c hr message,
        fst m = t0 ++ [ECall c hr; EError (error_line hr message "")] /\
        FAILED hr = true /\ unchecked_call c = false /\
        message <> "" /\ capture_clean t0 = true
  end.

(** Every event of a run satisfies [P]. *)
Definition all_events (P : event -> bool) {A} (m : M A) : Prop :=
  forallb P (fst m) = true.

Definition not_stop (e : event) : bool := negb (is_stop e).

(** The same world with another answer to [Stop]. *)
Definition with_hr_stop (w : capture_world) (hr : HRESULT) : capture_world :=
  mkCaptureWorld (cw_hr_create w) (cw_hr_get_device w) (cw_hr_open_props w)
    (cw_hr_get_value w) (cw_hr_activate w) (cw_hr_mix_format w)
    (cw_mix_format w) (cw_hr_device_period w) (cw_min_period w)
    (cw_hr_initialize w) (cw_hr_buffer_size w) (cw_hr_service w)
    (cw_hr_start w) hr (cw_ticks w).

(** A timer wait, if [e] is one, is scheduled [d] milliseconds after the
    previous expiry. *)
Definition waits_with (d : Z) (e : event) : bool :=
  match e with ETimerWait d' _ => d' =? d | _ => true end.

(** What the sink was handed and what is given back to the driver,
    followed along a trace.  [pending] is the byte count of a sink call
    not yet followed by its release.  A sink call must carry the block
    alignment [align] and come when nothing is pending; the next event
    must then be [ReleaseBuffer n] with [n x align], computed as line 176
    does, equal to that byte count; a release never comes otherwise. *)
Definition delivery_step (align : Z) (pending : option Z) (e : event)
  : option (option Z) :=
  match e, pending with
  | EBroadcast count a, None =>
      if a =? align then Some (Some count) else None
  | ECall (ReleaseBuffer n) _, Some count =>
      if count =? to_int32 (to_uint32 (n * align)) then Some None else None
  | EBroadcast _ _, Some _ => None
  | ECall (ReleaseBuffer _) _, None => None
  | _, None => Some None
  | _, Some _ => None
  end.

Fixpoint delivery_state (align : Z) (pending : option Z) (t : trace)
  : option (option Z) :=
  match t with
  | [] => Some pending
  | e :: t' =>
      match delivery_step align pending e with
      | Some pending' => delivery_state align pending' t'
      | None => None
      end
  end.

Definition deliveries_match_releases (align : Z) (t : trace) : bool :=
  match delivery_state align None t with
  | Some None => true
  | _ => false
  end.

Definition releases_what_it_delivers (align : Z) {A} (m : M A) : Prop :=
  delivery_state align None (fst m) = Some None.

(** The default-endpoint queries of a trace, in order: the data flow each
    one asks for and the HRESULT it is answered with. *)
Fixpoint default_queries (t : trace) : list (EDataFlow * HRESULT) :=
  match t with
  | [] => []
  | ECall (GetDefaultAudioEndpoint flow) hr :: t' =>
      (flow, hr) :: default_queries t'
  | _ :: t' => default_queries t'
  end.

Definition not_default_query (e : event) : bool :=
  match e with ECall (GetDefaultAudioEndpoint _) _ => false | _ => true end.

(* ------------------------------------------------------------------ *)
(** ** Facts about the monad and the result codes *)

Lemma FAILED_SUCCEEDED (hr : HRESULT) : FAILED hr = negb (SUCCEEDED hr).
Proof.
  unfold FAILED, SUCCEEDED.
  destruct (Z.ltb_spec hr 0), (Z.leb_spec 0 hr); simpl; auto; lia.
Qed.

Lemma SUCCEEDED_not_FAILED (hr : HRESULT) :
  SUCCEEDED hr = true -> FAILED hr = false.
Proof. intros H. rewrite FAILED_SUCCEEDED, H. reflexivity. Qed.

Lemma bind_ret_l {A B} (a : A) (k : A -> M B) : bind (ret a) k = k a.
Proof. unfold bind, ret. destruct (k a). reflexivity. Qed.

Lemma bind_pair {A B} (t : trace) (a : A) (k : A -> M B) :
  bind (t, Returned a) k = (t ++ fst (k a), snd (k a)).
Proof. unfold bind. destruct (k a). reflexivity. Qed.

(** A call followed by its check: the idiom of every OS call in the file. *)
Lemma checked_call_eq {B} (c : os_call) (h : HRESULT) (message func : string)
    (k : M B) :
  (hr <- call c h ;; exit_on_failed hr message func ;;; k)
  = if FAILED h
    then ([ECall c h; EError (error_line h message func)], Exited (-1))
    else (ECall c h :: fst k, snd k).
Proof.
  unfold call. rewrite bind_pair. unfold exit_on_failed.
  destruct (FAILED h); simpl.
  - reflexivity.
  - destruct k; reflexivity.
Qed.

Lemma bytes_eqb_eq (a b : list Z) : bytes_eqb a b = true <-> a = b.
Proof.
  revert b. induction a as [ | x a IH]; intros [ | y b]; simpl;
    try (split; [discriminate | congruence]).
  - split; reflexivity.
  - rewrite andb_true_iff, Z.eqb_eq, IH. split.
    + intros [-> ->]. reflexivity.
    + intros H. injection H. auto.
Qed.

Lemma IsEqualGUID_eq (a b : GUID) : IsEqualGUID a b = true <-> a = b.
Proof.
  unfold IsEqualGUID. rewrite !andb_true_iff, !Z.eqb_eq, bytes_eqb_eq.
  destruct a, b; simpl. split.
  - intros [[[-> ->] ->] ->]. reflexivity.
  - intros H. injection H. auto.
Qed.

(* ------------------------------------------------------------------ *)
(** ** Format resolution *)

(** C5, as the code has it: on an extensible native format [set_format]
    never exits and copies channels, sample rate and bits per sample; a
    floating-point sub-format gives the tag IEEE_FLOAT, a PCM sub-format
    gives PCM, and any other sub-format leaves the tag the message had
    before the call (Unknown only when it was Unknown already). *)
Theorem set_format_extensible :
  forall (_format : AudioFormat) (format : WAVEFORMATEX),
    wFormatTag format = WAVE_FORMAT_EXTENSIBLE ->
    exists tag,
      set_format _format format
      = ([], Returned (mkAudioFormat tag (nChannels format)
                                     (nSamplesPerSec format)
                                     (wBitsPerSample format)))
      /\ (SubFormat format = KSDATAFORMAT_SUBTYPE_IEEE_FLOAT ->
          tag = WAVE_FORMAT_IEEE_FLOAT)
      /\ (SubFormat format = KSDATAFORMAT_SUBTYPE_PCM ->
          tag = WAVE_FORMAT_PCM)
      /\ (SubFormat format <> KSDATAFORMAT_SUBTYPE_IEEE_FLOAT ->
          SubFormat format <> KSDATAFORMAT_SUBTYPE_PCM ->
          tag = format_tag _format)
      /\ (SubFormat format <> KSDATAFORMAT_SUBTYPE_IEEE_FLOAT ->
          SubFormat format <> KSDATAFORMAT_SUBTYPE_PCM ->
          format_tag _format = WAVE_FORMAT_UNKNOWN ->
          tag = WAVE_FORMAT_UNKNOWN).
Proof.
  intros f w Htag. unfold set_format. rewrite Htag. simpl.
  destruct (IsEqualGUID (SubFormat w) KSDATAFORMAT_SUBTYPE_PCM) eqn:Ep;
    [ | destruct (IsEqualGUID (SubFormat w) KSDATAFORMAT_SUBTYPE_IEEE_FLOAT) eqn:Ef ].
  - apply IsEqualGUID_eq in Ep.
    exists WAVE_FORMAT_PCM. split; [reflexivity | ].
    repeat split; intros; try reflexivity; try contradiction.
    rewrite Ep in *. discriminate.
  - apply IsEqualGUID_eq in Ef.
    exists WAVE_FORMAT_IEEE_FLOAT. split; [reflexivity | ].
    repeat split; intros; try reflexivity; try contradiction.
    rewrite Ef in *. discriminate.
  - exists (format_tag f). split; [reflexivity | ].
    repeat split; intros; try reflexivity; try assumption.
    + apply IsEqualGUID_eq in H. congruence.
    + apply IsEqualGUID_eq in H. congruence.
Qed.

(* ------------------------------------------------------------------ *)
(** ** The default endpoint *)

(** What one call of [get_default_endpoint] is, by cases on the answers. *)
Lemma get_default_endpoint_eq (w : default_world) :
  get_default_endpoint w
  = if FAILED (dw_hr_create w) then
      ([ECall CoCreateInstance (dw_hr_create w);
        EError (error_line (dw_hr_create w) "" "")], Exited (-1))
    else if dw_hr_default w =? HRESULT_FROM_WIN32 ERROR_NOT_FOUND then
      ([ECall CoCreateInstance (dw_hr_create w);
        ECall (GetDefaultAudioEndpoint eRender) (dw_hr_default w)],
       Returned "")
    else if FAILED (dw_hr_default w) then
      ([ECall CoCreateInstance (dw_hr_create w);
        ECall (GetDefaultAudioEndpoint eRender) (dw_hr_default w);
        EError (error_line (dw_hr_default w) "" "")], Exited (-1))
    else if FAILED (dw_hr_get_id w) then
      ([ECall CoCreateInstance (dw_hr_create w);
        ECall (GetDefaultAudioEndpoint eRender) (dw_hr_default w);
        ECall GetId (dw_hr_get_id w);
        EError (error_line (dw_hr_get_id w) "" "")], Exited (-1))
    else
      ([ECall CoCreateInstance (dw_hr_create w);
        ECall (GetDefaultAudioEndpoint eRender) (dw_hr_default w);
        ECall GetId (dw_hr_get_id w)],
       Returned (wchars_to_mbs (dw_id w))).
Proof.
  unfold get_default_endpoint, exit_on_failed, call, emit, exit_, ret, bind.
  destruct (FAILED (dw_hr_create w)); [reflexivity | ].
  destruct (dw_hr_default w =? HRESULT_FROM_WIN32 ERROR_NOT_FOUND);
    [reflexivity | ].
  destruct (FAILED (dw_hr_default w)); [reflexivity | ].
  destruct (FAILED (dw_hr_get_id w)); reflexivity.
Qed.

(** C7: when the enumerator exists and the OS reports that there is no
    default render endpoint (ERROR_NOT_FOUND), [get_default_endpoint]
    returns the empty string to its caller and does not exit; and every
    call asks the OS again: whatever an earlier call returned, a later
    call made in the no-device state queries the OS and returns the empty
    string, and a call made after it returns what the OS answers then. *)
Theorem get_default_endpoint_absent :
  forall w : default_world,
    SUCCEEDED (dw_hr_create w) = true ->
    dw_hr_default w = HRESULT_FROM_WIN32 ERROR_NOT_FOUND ->
    get_default_endpoint w
    = ([ECall CoCreateInstance (dw_hr_create w);
        ECall (GetDefaultAudioEndpoint eRender) (dw_hr_default w)],
       Returned "")
    /\ (forall (earlier : default_world) (t : trace) (id : string),
          get_default_endpoint earlier = (t, Returned id) ->
          (a <- get_default_endpoint earlier ;;
           b <- get_default_endpoint w ;;
           ret (a, b))
          = (t ++ [ECall CoCreateInstance (dw_hr_create w);
                   ECall (GetDefaultAudioEndpoint eRender) (dw_hr_default w)],
             Returned (id, "")))
    /\ (forall later : default_world,
          (a <- get_default_endpoint w ;; get_default_endpoint later)
          = ([ECall CoCreateInstance (dw_hr_create w);
              ECall (GetDefaultAudioEndpoint eRender) (dw_hr_default w)]
               ++ fst (get_default_endpoint later),
             snd (get_default_endpoint later))).
Proof.
  intros w Hc Hd.
  assert (E : get_default_endpoint w
              = ([ECall CoCreateInstance (dw_hr_create w);
                  ECall (GetDefaultAudioEndpoint eRender) (dw_hr_default w)],
                 Returned "")).
  { rewrite get_default_endpoint_eq, (SUCCEEDED_not_FAILED _ Hc), Hd.
    rewrite Z.eqb_refl. reflexivity. }
  split; [exact E | split].
  - intros earlier t id He. rewrite He, bind_pair, E. reflexivity.
  - intros later. rewrite E, bind_pair. reflexivity.
Qed.

(* ------------------------------------------------------------------ *)
(** ** Endpoint enumeration *)

Lemma clean_app (t u : trace) : clean (t ++ u) = clean t && clean u.
Proof. unfold clean. apply forallb_app. Qed.

Lemma disciplined_ret {A} (a : A) : disciplined (ret a).
Proof. reflexivity. Qed.

Lemma disciplined_bind {A B} (m : M A) (k : A -> M B) :
  disciplined m -> (forall a, disciplined (k a)) -> disciplined (bind m k).
Proof.
  destruct m as [t [a | c | ]]; unfold disciplined at 1; simpl.
  - intros Ht Hk. specialize (Hk a). unfold disciplined in *.
    destruct (k a) as [t' [b | c | ]]; simpl in *.
    + rewrite clean_app, Ht, Hk. reflexivity.
    + destruct Hk as [-> (t0 & c0 & hr & -> & Hf & Htol & Hc)].
      split; [reflexivity | ].
      exists (t ++ t0), c0, hr. rewrite app_assoc, clean_app, Ht, Hc. auto.
    + exact Hk.
  - intros H _. exact H.
  - intros [].
Qed.

Lemma disciplined_checked {B} (c : os_call) (h : HRESULT) (k : M B) :
  tolerated_not_found c h = false ->
  disciplined k ->
  disciplined (hr <- call c h ;; exit_on_failed hr "" "" ;;; k).
Proof.
  intros Htol Hk. rewrite checked_call_eq.
  destruct (FAILED h) eqn:Hf; unfold disciplined in *; simpl.
  - split; [reflexivity | ]. exists [], c, h. auto.
  - destruct k as [t' [b | code | ]]; simpl in *.
    + rewrite Hf. simpl. exact Hk.
    + destruct Hk as [-> (t0 & c0 & hr & -> & Hf0 & Htol0 & Hc)].
      split; [reflexivity | ].
      exists (ECall c h :: t0), c0, hr. simpl. rewrite Hf, Hc. auto.
    + exact Hk.
Qed.

Lemma disciplined_get_default_endpoint (w : default_world) :
  disciplined (get_default_endpoint w).
Proof.
  rewrite get_default_endpoint_eq. unfold disciplined.
  destruct (FAILED (dw_hr_create w)) eqn:H1; simpl.
  { split; [reflexivity | ]. exists [], CoCreateInstance, (dw_hr_create w). auto. }
  destruct (dw_hr_default w =? HRESULT_FROM_WIN32 ERROR_NOT_FOUND) eqn:H2; simpl.
  { rewrite H1, H2. simpl. rewrite andb_false_r. reflexivity. }
  destruct (FAILED (dw_hr_default w)) eqn:H3; simpl.
  { split; [reflexivity | ].
    exists [ECall CoCreateInstance (dw_hr_create w)],
           (GetDefaultAudioEndpoint eRender), (dw_hr_default w).
    simpl. rewrite H1. auto. }
  destruct (FAILED (dw_hr_get_id w)) eqn:H4; simpl.
  { split; [reflexivity | ].
    exists [ECall CoCreateInstance (dw_hr_create w);
            ECall (GetDefaultAudioEndpoint eRender) (dw_hr_default w)],
           GetId, (dw_hr_get_id w).
    simpl. rewrite H1, H3. auto. }
  rewrite H1, H3, H4. reflexivity.
Qed.

Lemma disciplined_endpoint_body (data_flow : EDataFlow) (d : device_world)
    (default_id : string) (i : nat) (st : endpoint_list_t * Z) :
  disciplined (endpoint_body data_flow d default_id i st).
Proof.
  destruct st as [l idx]. unfold endpoint_body.
  repeat (apply disciplined_checked; [reflexivity | ]).
  apply disciplined_ret.
Qed.

Lemma disciplined_endpoint_loop (data_flow : EDataFlow)
    (item : nat -> device_world) (default_id : string) (n : nat) :
  forall (i : nat) (st : endpoint_list_t * Z),
    disciplined (endpoint_loop data_flow item default_id n i st).
Proof.
  induction n as [ | n IH]; intros i st; simpl.
  - apply disciplined_ret.
  - apply disciplined_bind; [apply disciplined_endpoint_body | ].
    intros st'. apply IH.
Qed.

Lemma disciplined_flow_body (w : enum_world) (data_flow : EDataFlow)
    (st : endpoint_list_t * Z) :
  disciplined (flow_body w data_flow st).
Proof.
  unfold flow_body.
  repeat (apply disciplined_checked; [reflexivity | ]).
  apply disciplined_bind; [apply disciplined_get_default_endpoint | ].
  intros default_id. apply disciplined_endpoint_loop.
Qed.

Lemma disciplined_get_endpoint_list (w : enum_world) (l : endpoint_list_t) :
  disciplined (get_endpoint_list w l).
Proof.
  unfold get_endpoint_list.
  apply disciplined_bind; [apply disciplined_get_default_endpoint | ].
  intros default_id.
  apply disciplined_bind; [ | intros st; apply disciplined_ret].
  simpl.
  apply disciplined_bind; [apply disciplined_flow_body | ]. intros st1.
  apply disciplined_bind; [apply disciplined_flow_body | ]. intros st2.
  apply disciplined_ret.
Qed.

Lemma clean_no_failed_query (t : trace) :
  clean t = true -> existsb failed_query t = false.
Proof.
  induction t as [ | e t IH]; simpl; [reflexivity | ].
  rewrite !andb_true_iff, !negb_true_iff. intros [[H _] Ht].
  rewrite H, (IH Ht). reflexivity.
Qed.

(** C4, as the code has it: a failed OS query inside [get_endpoint_list]
    (every failed HRESULT except ERROR_NOT_FOUND from the default-endpoint
    query, which stands for "no default device") is the last call the
    routine makes: an error line built from the OS error code is logged
    and the process exits with code -1, nothing comes back to the caller.
    A run in which no query failed returns its index and list.  So a
    failure is never mistaken for the result "no default device". *)
Theorem get_endpoint_list_failure_exits :
  forall (w : enum_world) (endpoint_list : endpoint_list_t),
    (existsb failed_query (fst (get_endpoint_list w endpoint_list)) = true ->
     snd (get_endpoint_list w endpoint_list) = Exited (-1) /\
     returns_to_caller (snd (get_endpoint_list w endpoint_list)) = false /\
     exists t0 c hr,
       fst (get_endpoint_list w endpoint_list)
       = t0 ++ [ECall c hr; EError (error_line hr "" "")] /\
       FAILED hr = true /\ tolerated_not_found c hr = false /\
       clean t0 = true)
    /\ (existsb failed_query (fst (get_endpoint_list w endpoint_list)) = false ->
        exists default_index endpoints,
          snd (get_endpoint_list w endpoint_list)
          = Returned (default_index, endpoints)).
Proof.
  intros w l. pose proof (disciplined_get_endpoint_list w l) as D.
  unfold disciplined in D.
  destruct (get_endpoint_list w l) as [t [[idx l'] | code | ]]; simpl in *.
  - split.
    + rewrite (clean_no_failed_query _ D). discriminate.
    + intros _. exists idx, l'. reflexivity.
  - destruct D as [-> (t0 & c & hr & -> & Hf & Htol & Hc)]. split.
    + intros _. split; [reflexivity | split; [reflexivity | ]].
      exists t0, c, hr. auto.
    + rewrite existsb_app. simpl. rewrite Hf, Htol. simpl.
      rewrite orb_true_r. discriminate.
  - destruct D.
Qed.

Lemma last_match_none (default_id : string) (ids : list string) :
  forall (i : nat) (acc : Z),
    (forall id, In id ids -> id <> default_id) ->
    last_match default_id ids i acc = acc.
Proof.
  induction ids as [ | id ids IH]; intros i acc H; simpl; [reflexivity | ].
  rewrite IH by (intros x Hx; apply H; right; exact Hx).
  destruct (String.eqb_spec id default_id) as [E | _]; [ | reflexivity].
  exfalso. apply (H id); [left; reflexivity | exact E].
Qed.

(* ------------------------------------------------------------------ *)
(** ** Start-up of the capture stream *)

Lemma bind_assoc {A B C} (m : M A) (f : A -> M B) (g : B -> M C) :
  bind (bind m f) g = bind m (fun x => bind (f x) g).
Proof.
  destruct m as [t [a | c | ]]; simpl; try reflexivity.
  destruct (f a) as [t1 [b | c | ]]; simpl; try reflexivity.
  destruct (g b) as [t2 o]. rewrite app_assoc. reflexivity.
Qed.

Lemma call_bind {B} (c : os_call) (h : HRESULT) (k : HRESULT -> M B) :
  bind (call c h) k = prepend [ECall c h] (k h).
Proof. unfold call. rewrite bind_pair. reflexivity. Qed.

Lemma emit_bind {B} (e : event) (k : unit -> M B) :
  bind (emit e) k = prepend [e] (k tt).
Proof. unfold emit. rewrite bind_pair. reflexivity. Qed.

Lemma prepend_prepend {A} (t u : trace) (m : M A) :
  prepend t (prepend u m) = prepend (t ++ u) m.
Proof. unfold prepend. simpl. rewrite app_assoc. reflexivity. Qed.

Lemma prepend_bind {A B} (t : trace) (m : M A) (k : A -> M B) :
  bind (prepend t m) k = prepend t (bind m k).
Proof.
  destruct m as [u [a | c | ]]; unfold prepend; simpl; try reflexivity.
  destruct (k a). simpl. rewrite app_assoc. reflexivity.
Qed.

Lemma checked_ok {B} (c : os_call) (h : HRESULT) (message func : string)
    (k : M B) :
  FAILED h = false ->
  (hr <- call c h ;; exit_on_failed hr message func ;;; k)
  = prepend [ECall c h] k.
Proof. intros H. rewrite checked_call_eq, H. reflexivity. Qed.

Lemma checked_fail {B} (c : os_call) (h : HRESULT) (message func : string)
    (k : M B) :
  FAILED h = true ->
  (hr <- call c h ;; exit_on_failed hr message func ;;; k)
  = ([ECall c h; EError (error_line h message func)], Exited (-1)).
Proof. intros H. rewrite checked_call_eq, H. reflexivity. Qed.

Lemma set_format_total (f : AudioFormat) (fmt : WAVEFORMATEX) :
  exists f', set_format f fmt = ret f'.
Proof. eexists. reflexivity. Qed.

Lemma pre_init_ok_inv (w : capture_world) :
  pre_init_ok w = true ->
  FAILED (cw_hr_create w) = false /\ FAILED (cw_hr_get_device w) = false /\
  FAILED (cw_hr_open_props w) = false /\ FAILED (cw_hr_get_value w) = false /\
  FAILED (cw_hr_activate w) = false /\ FAILED (cw_hr_mix_format w) = false /\
  FAILED (cw_hr_device_period w) = false.
Proof.
  unfold pre_init_ok. rewrite !andb_true_iff.
  intros [[[[[[H1 H2] H3] H4] H5] H6] H7].
  repeat split; apply SUCCEEDED_not_FAILED; assumption.
Qed.

Lemma post_init_ok_inv (w : capture_world) :
  post_init_ok w = true ->
  FAILED (cw_hr_buffer_size w) = false /\ FAILED (cw_hr_service w) = false /\
  FAILED (cw_hr_start w) = false.
Proof.
  unfold post_init_ok. rewrite !andb_true_iff. intros [[H1 H2] H3].
  repeat split; apply SUCCEEDED_not_FAILED; assumption.
Qed.

(** The start-up, by cases on the two [Initialize] answers. *)
Lemma start_capture_stream_eq (w : capture_world) (f : AudioFormat)
    (id : string) :
  pre_init_ok w = true ->
  exists f',
    set_format f (handle_extensible (cw_mix_format w)) = ret f' /\
    start_capture_stream w f id
    = if FAILED (cw_hr_initialize w AUDCLNT_STREAMFLAGS_LOOPBACK) then
        if FAILED (cw_hr_initialize w AUDCLNT_STREAMFLAGS_EVENTCALLBACK) then
          (pre_init_trace w id
             ++ [loopback_attempt w; fallback_warning; fallback_attempt w;
                 EError (error_line
                           (cw_hr_initialize w AUDCLNT_STREAMFLAGS_EVENTCALLBACK)
                           "Failed to initialize audio client for loopback" "")],
           Exited (-1))
        else
          prepend (pre_init_trace w id
                     ++ [loopback_attempt w; fallback_warning;
                         fallback_attempt w])
                  (finish_start w f')
      else
        prepend (pre_init_trace w id ++ [loopback_attempt w])
                (finish_start w f').
Proof.
  intros Hpre.
  destruct (pre_init_ok_inv w Hpre) as (H1 & H2 & H3 & H4 & H5 & H6 & H7).
  destruct (set_format_total f (handle_extensible (cw_mix_format w)))
    as [f' Ef].
  exists f'. split; [exact Ef | ].
  unfold start_capture_stream.
  rewrite (checked_ok _ _ _ _ _ H1), (checked_ok _ _ _ _ _ H2),
    (checked_ok _ _ _ _ _ H3), (checked_ok _ _ _ _ _ H4),
    (checked_ok _ _ _ _ _ H5), (checked_ok _ _ _ _ _ H6).
  cbv zeta. rewrite Ef, bind_ret_l, (checked_ok _ _ _ _ _ H7), call_bind.
  rewrite !prepend_prepend. fold (finish_start w f').
  destruct (FAILED (cw_hr_initialize w AUDCLNT_STREAMFLAGS_LOOPBACK)).
  - rewrite bind_assoc, emit_bind.
    destruct (FAILED (cw_hr_initialize w AUDCLNT_STREAMFLAGS_EVENTCALLBACK))
      eqn:Hf.
    + rewrite bind_assoc.
      rewrite (checked_fail _ _ _ _ _ Hf). reflexivity.
    + rewrite bind_assoc.
      rewrite (checked_ok _ _ _ _ _ Hf), !prepend_prepend. reflexivity.
  - rewrite bind_ret_l. reflexivity.
Qed.

Lemma initialize_calls_app (t u : trace) :
  initialize_calls (t ++ u) = initialize_calls t ++ initialize_calls u.
Proof.
  induction t as [ | e t IH]; simpl; [reflexivity | ].
  destruct e as [c hr | | | | ]; try exact IH.
  destruct c; simpl; rewrite ?IH; reflexivity.
Qed.

Lemma no_initialize_bind {A B} (m : M A) (k : A -> M B) :
  no_initialize m -> (forall a, no_initialize (k a)) ->
  no_initialize (bind m k).
Proof.
  unfold no_initialize. destruct m as [t [a | c | ]]; simpl; auto.
  intros Ht Hk. specialize (Hk a). destruct (k a) as [u o]. simpl in *.
  rewrite initialize_calls_app, Ht, Hk. reflexivity.
Qed.

Lemma no_initialize_exit_on_failed (hr : HRESULT) (message func : string) :
  no_initialize (exit_on_failed hr message func).
Proof. unfold exit_on_failed. destruct (FAILED hr); reflexivity. Qed.

Lemma no_initialize_loop_body (d : Z) (fmt : WAVEFORMATEX) (t : tick) :
  no_initialize (loop_body d fmt t).
Proof.
  unfold loop_body.
  apply no_initialize_bind; [reflexivity | intros _].
  destruct (negb (wait_ec t =? 0)); [reflexivity | ].
  apply no_initialize_bind; [reflexivity | intros hr].
  apply no_initialize_bind; [apply no_initialize_exit_on_failed | intros _].
  destruct (next_packet_size t =? 0); [reflexivity | ].
  apply no_initialize_bind; [reflexivity | intros hr'].
  apply no_initialize_bind; [apply no_initialize_exit_on_failed | intros _].
  apply no_initialize_bind; [reflexivity | intros _].
  apply no_initialize_bind; [reflexivity | intros hr''].
  apply no_initialize_bind; [apply no_initialize_exit_on_failed | intros _].
  reflexivity.
Qed.

Lemma no_initialize_capture_loop (d : Z) (fmt : WAVEFORMATEX)
    (ticks : list tick) :
  no_initialize (capture_loop d fmt ticks).
Proof.
  induction ticks as [ | t later IH]; [reflexivity | ].
  cbn [capture_loop].
  apply no_initialize_bind; [apply no_initialize_loop_body | ].
  intros [ | ]; [ | reflexivity].
  destruct (negb (stopped_at_cond t)); [exact IH | reflexivity].
Qed.

Lemma no_initialize_after_start (w : capture_world) (f : AudioFormat) :
  no_initialize
    (locals <- finish_start w f ;;
     let '(_format, pCaptureFormat, duration) := locals in
     capture_loop duration pCaptureFormat (cw_ticks w) ;;;
     call Stop (cw_hr_stop w) ;;;
     ret _format).
Proof.
  apply no_initialize_bind.
  - unfold finish_start.
    repeat (apply no_initialize_bind;
            [first [reflexivity | apply no_initialize_exit_on_failed]
            | intros ? ]).
    reflexivity.
  - intros [[f' fmt] d].
    apply no_initialize_bind; [apply no_initialize_capture_loop | intros _].
    apply no_initialize_bind; [reflexivity | intros _]. reflexivity.
Qed.

Lemma finish_start_ok (w : capture_world) (f : AudioFormat) :
  post_init_ok w = true ->
  finish_start w f
  = ([ECall GetBufferSize (cw_hr_buffer_size w);
      ECall GetService (cw_hr_service w);
      ECall Start (cw_hr_start w)],
     Returned (f, handle_extensible (cw_mix_format w),
               Z.quot (cw_min_period w) REFTIMES_PER_MILLISEC)).
Proof.
  intros H. destruct (post_init_ok_inv w H) as (H1 & H2 & H3).
  unfold finish_start.
  rewrite (checked_ok _ _ _ _ _ H1), (checked_ok _ _ _ _ _ H2),
    (checked_ok _ _ _ _ _ H3).
  reflexivity.
Qed.

Lemma reached_running_app (t u : trace) :
  reached_running (t ++ u) = reached_running t || reached_running u.
Proof. unfold reached_running. apply existsb_app. Qed.

Lemma error_line_not_empty (hr : HRESULT) (message func : string) :
  error_line hr message func <> "".
Proof. unfold error_line. simpl. discriminate. Qed.

(** C1, as the code has it.  In every run whose calls before [Initialize]
    succeed: [Initialize] is called with the loopback flag, and only if
    that is rejected once more with the EVENTCALLBACK flag, the same
    duration and the same format, never a third time.  If either attempt
    succeeds and [GetBufferSize], [GetService] and [Start] succeed too,
    the stream is started and the loop is entered.  If both attempts fail
    the routine logs a non-empty error line for the second HRESULT and
    calls [exit(-1)]: the stream is never started and nothing, no state
    and no reason, comes back to the caller. *)
Theorem initialize_fallback_once :
  forall (w : capture_world) (f : AudioFormat) (id : string),
    pre_init_ok w = true ->
    initialize_calls (fst (do_loopback_recording w f id))
    = (if FAILED (cw_hr_initialize w AUDCLNT_STREAMFLAGS_LOOPBACK)
       then [(AUDCLNT_STREAMFLAGS_LOOPBACK,
              handle_extensible (cw_mix_format w),
              cw_hr_initialize w AUDCLNT_STREAMFLAGS_LOOPBACK);
             (AUDCLNT_STREAMFLAGS_EVENTCALLBACK,
              handle_extensible (cw_mix_format w),
              cw_hr_initialize w AUDCLNT_STREAMFLAGS_EVENTCALLBACK)]
       else [(AUDCLNT_STREAMFLAGS_LOOPBACK,
              handle_extensible (cw_mix_format w),
              cw_hr_initialize w AUDCLNT_STREAMFLAGS_LOOPBACK)])
    /\ (init_ok w = true -> post_init_ok w = true ->
        reached_running (fst (do_loopback_recording w f id)) = true)
    /\ (FAILED (cw_hr_initialize w AUDCLNT_STREAMFLAGS_LOOPBACK) = true ->
        FAILED (cw_hr_initialize w AUDCLNT_STREAMFLAGS_EVENTCALLBACK) = true ->
        do_loopback_recording w f id
        = (pre_init_trace w id
             ++ [loopback_attempt w; fallback_warning; fallback_attempt w;
                 EError (error_line
                           (cw_hr_initialize w AUDCLNT_STREAMFLAGS_EVENTCALLBACK)
                           "Failed to initialize audio client for loopback" "")],
           Exited (-1))
        /\ error_line (cw_hr_initialize w AUDCLNT_STREAMFLAGS_EVENTCALLBACK)
                      "Failed to initialize audio client for loopback" ""
           <> ""
        /\ reached_running (fst (do_loopback_recording w f id)) = false
        /\ returns_to_caller (snd (do_loopback_recording w f id)) = false).
Proof.
  intros w f id Hpre.
  destruct (start_capture_stream_eq w f id Hpre) as (f' & Ef & Es).
  unfold do_loopback_recording. rewrite Es. clear Es.
  pose proof (no_initialize_after_start w f') as Hn. unfold no_initialize in Hn.
  unfold init_ok. rewrite !FAILED_SUCCEEDED.
  destruct (SUCCEEDED (cw_hr_initialize w AUDCLNT_STREAMFLAGS_LOOPBACK));
    [ | destruct (SUCCEEDED (cw_hr_initialize w AUDCLNT_STREAMFLAGS_EVENTCALLBACK)) ];
    cbn [negb orb].
  - rewrite prepend_bind. unfold prepend. cbn [fst snd].
    split; [ | split; [ | discriminate]].
    + rewrite initialize_calls_app, Hn, app_nil_r. reflexivity.
    + intros _ Hpost. rewrite (finish_start_ok _ _ Hpost), bind_pair.
      cbn [fst]. rewrite !reached_running_app.
      unfold post_init_ok in Hpost. rewrite !andb_true_iff in Hpost.
      destruct Hpost as [_ Hs]. simpl. rewrite Hs. reflexivity.
  - rewrite prepend_bind. unfold prepend. cbn [fst snd].
    split; [ | split; [ | discriminate]].
    + rewrite initialize_calls_app, Hn, app_nil_r. reflexivity.
    + intros _ Hpost. rewrite (finish_start_ok _ _ Hpost), bind_pair.
      cbn [fst]. rewrite !reached_running_app.
      unfold post_init_ok in Hpost. rewrite !andb_true_iff in Hpost.
      destruct Hpost as [_ Hs]. simpl. rewrite Hs. reflexivity.
  - cbn [bind fst snd].
    split; [reflexivity | split; [discriminate | ]].
    intros _ _. split; [reflexivity | split; [ | split; reflexivity]].
    apply error_line_not_empty.
Qed.

(* ------------------------------------------------------------------ *)
(** ** The capture loop *)

(** One pass through the loop body, by cases on the answers. *)
Lemma loop_body_eq (d : Z) (fmt : WAVEFORMATEX) (t : tick) :
  loop_body d fmt t
  = if negb (wait_ec t =? 0) then
      ([ETimerWait d (wait_ec t)], Returned Break)
    else if FAILED (hr_packet t) then
      ([ETimerWait d (wait_ec t); ECall GetNextPacketSize (hr_packet t);
        EError (error_line (hr_packet t)
                           "pCaptureClient->GetNextPacketSize" "")],
       Exited (-1))
    else if next_packet_size t =? 0 then
      ([ETimerWait d (wait_ec t); ECall GetNextPacketSize (hr_packet t)],
       Returned ToCondition)
    else if FAILED (hr_buffer t) then
      ([ETimerWait d (wait_ec t); ECall GetNextPacketSize (hr_packet t);
        ECall GetBuffer (hr_buffer t);
        EError (error_line (hr_buffer t) "pCaptureClient->GetBuffer" "")],
       Exited (-1))
    else if FAILED (hr_release t) then
      ([ETimerWait d (wait_ec t); ECall GetNextPacketSize (hr_packet t);
        ECall GetBuffer (hr_buffer t);
        EBroadcast (delivered_count fmt t) (nBlockAlign fmt);
        ECall (ReleaseBuffer (numFramesAvailable t)) (hr_release t);
        EError (error_line (hr_release t) "pCaptureClient->ReleaseBuffer" "")],
       Exited (-1))
    else
      ([ETimerWait d (wait_ec t); ECall GetNextPacketSize (hr_packet t);
        ECall GetBuffer (hr_buffer t);
        EBroadcast (delivered_count fmt t) (nBlockAlign fmt);
        ECall (ReleaseBuffer (numFramesAvailable t)) (hr_release t)],
       Returned ToCondition).
Proof.
  unfold loop_body, delivered_count, exit_on_failed, call, emit, exit_, ret,
    bind.
  destruct (negb (wait_ec t =? 0)); [reflexivity | ].
  destruct (FAILED (hr_packet t)); [reflexivity | ].
  destruct (next_packet_size t =? 0); [reflexivity | ].
  destruct (FAILED (hr_buffer t)); [reflexivity | ].
  destruct (FAILED (hr_release t)); reflexivity.
Qed.

Lemma tick_completes_inv (t : tick) :
  tick_completes t = true ->
  (wait_ec t =? 0) = true /\ FAILED (hr_packet t) = false /\
  ((next_packet_size t =? 0) = true \/
   (next_packet_size t =? 0) = false /\
   FAILED (hr_buffer t) = false /\ FAILED (hr_release t) = false).
Proof.
  unfold tick_completes. rewrite !andb_true_iff, orb_true_iff, andb_true_iff.
  intros [[H1 H2] H3]. split; [exact H1 | ].
  split; [apply SUCCEEDED_not_FAILED; exact H2 | ].
  destruct (next_packet_size t =? 0); [left; reflexivity | right].
  destruct H3 as [H3 | [H3 H4]]; [discriminate | ].
  repeat split; apply SUCCEEDED_not_FAILED; assumption.
Qed.

(** The events of a tick on which nothing fails. *)
Lemma loop_body_completes (d : Z) (fmt : WAVEFORMATEX) (t : tick) :
  tick_completes t = true ->
  loop_body d fmt t
  = (ETimerWait d (wait_ec t)
     :: ECall GetNextPacketSize (hr_packet t)
     :: (if next_packet_size t =? 0 then []
         else [ECall GetBuffer (hr_buffer t);
               EBroadcast (delivered_count fmt t) (nBlockAlign fmt);
               ECall (ReleaseBuffer (numFramesAvailable t)) (hr_release t)]),
     Returned ToCondition).
Proof.
  intros H. rewrite loop_body_eq.
  destruct (tick_completes_inv t H) as (H1 & H2 & [H3 | (H3 & H4 & H5)]).
  - rewrite H1, H2, H3. reflexivity.
  - rewrite H1, H2, H3, H4, H5. reflexivity.
Qed.

Lemma capture_loop_stop (d : Z) (fmt : WAVEFORMATEX) (t : tick)
    (later : list tick) :
  tick_completes t = true -> stopped_at_cond t = true ->
  capture_loop d fmt (t :: later) = (fst (loop_body d fmt t), Returned tt).
Proof.
  intros Hc Hs. cbn [capture_loop].
  rewrite (loop_body_completes d fmt t Hc), bind_pair, Hs.
  cbn [negb fst snd ret]. rewrite app_nil_r. reflexivity.
Qed.

Lemma capture_loop_continue (d : Z) (fmt : WAVEFORMATEX) (t : tick)
    (later : list tick) :
  tick_completes t = true -> stopped_at_cond t = false ->
  capture_loop d fmt (t :: later)
  = prepend (fst (loop_body d fmt t)) (capture_loop d fmt later).
Proof.
  intros Hc Hs. cbn [capture_loop].
  rewrite (loop_body_completes d fmt t Hc), bind_pair, Hs.
  reflexivity.
Qed.

Lemma capture_loop_break (d : Z) (fmt : WAVEFORMATEX) (t : tick)
    (later : list tick) :
  wait_ec t <> 0 ->
  capture_loop d fmt (t :: later) = ([ETimerWait d (wait_ec t)], Returned tt).
Proof.
  intros H. cbn [capture_loop]. rewrite loop_body_eq.
  apply Z.eqb_neq in H. rewrite H. reflexivity.
Qed.

Lemma keeps_running_inv (t : tick) :
  keeps_running t = true ->
  tick_completes t = true /\ stopped_at_cond t = false.
Proof.
  unfold keeps_running. rewrite andb_true_iff, negb_true_iff. auto.
Qed.

Lemma capture_loop_app (d : Z) (fmt : WAVEFORMATEX) (pre rest : list tick) :
  forallb keeps_running pre = true ->
  capture_loop d fmt (pre ++ rest)
  = prepend (ticks_trace d fmt pre) (capture_loop d fmt rest).
Proof.
  induction pre as [ | t pre IH]; intros H.
  - unfold prepend. simpl. destruct (capture_loop d fmt rest). reflexivity.
  - cbn [forallb] in H. apply andb_true_iff in H. destruct H as [Ht Hp].
    destruct (keeps_running_inv t Ht) as [Hc Hs].
    rewrite <- app_comm_cons, (capture_loop_continue _ _ _ _ Hc Hs), (IH Hp).
    rewrite prepend_prepend. reflexivity.
Qed.

(** C2, as the code has it: the loop is a do-while.  The value the flag
    has when a tick begins is never read, so the run is the same whatever
    it is.  The flag is read once per tick, at the condition that closes
    the tick, after the tick's buffer operations: read set there, the loop
    ends with no timer wait and no buffer operation of any later tick;
    read clear, the next tick runs. *)
Theorem stop_flag_read_at_condition :
  forall (d : Z) (fmt : WAVEFORMATEX) (t : tick) (later : list tick),
    (forall b : bool,
        capture_loop d fmt (with_stopped_at_top b t :: later)
        = capture_loop d fmt (t :: later))
    /\ (tick_completes t = true -> stopped_at_cond t = true ->
        capture_loop d fmt (t :: later)
        = (fst (loop_body d fmt t), Returned tt))
    /\ (tick_completes t = true -> stopped_at_cond t = false ->
        capture_loop d fmt (t :: later)
        = prepend (fst (loop_body d fmt t)) (capture_loop d fmt later)).
Proof.
  intros d fmt t later. split; [ | split].
  - intros b. reflexivity.
  - apply capture_loop_stop.
  - apply capture_loop_continue.
Qed.





Lemma buffer_state_app (held : bool) (t u : trace) :
  buffer_state held (t ++ u)
  = match buffer_state held t with
    | Some held' => buffer_state held' u
    | None => None
    end.
Proof.
  revert held. induction t as [ | e t IH]; intros held; simpl; [reflexivity | ].
  destruct (buffer_step held e); [apply IH | reflexivity].
Qed.

Lemma releases_bind {A B} (m : M A) (k : A -> M B) :
  releases_what_it_takes m -> (forall a, releases_what_it_takes (k a)) ->
  releases_what_it_takes (bind m k).
Proof.
  unfold releases_what_it_takes. destruct m as [t [a | c | ]]; simpl; auto.
  intros Ht Hk. specialize (Hk a). destruct (k a) as [u o]. simpl in *.
  rewrite buffer_state_app, Ht. exact Hk.
Qed.

Lemma releases_exit_on_failed (hr : HRESULT) (message func : string) :
  releases_what_it_takes (exit_on_failed hr message func).
Proof. unfold exit_on_failed. destruct (FAILED hr); reflexivity. Qed.

Lemma releases_loop_body (d : Z) (fmt : WAVEFORMATEX) (t : tick) :
  releases_what_it_takes (loop_body d fmt t).
Proof.
  unfold releases_what_it_takes. rewrite loop_body_eq.
  destruct (negb (wait_ec t =? 0)); [reflexivity | ].
  destruct (FAILED (hr_packet t)); [reflexivity | ].
  destruct (next_packet_size t =? 0); [reflexivity | ].
  rewrite (FAILED_SUCCEEDED (hr_buffer t)).
  destruct (SUCCEEDED (hr_buffer t)) eqn:Hb; cbn [negb].
  - destruct (FAILED (hr_release t)); simpl; rewrite Hb; reflexivity.
  - simpl. rewrite Hb. reflexivity.
Qed.

Lemma releases_capture_loop (d : Z) (fmt : WAVEFORMATEX) (ticks : list tick) :
  releases_what_it_takes (capture_loop d fmt ticks).
Proof.
  induction ticks as [ | t later IH]; [reflexivity | ].
  cbn [capture_loop].
  apply releases_bind; [apply releases_loop_body | ].
  intros [ | ]; [ | reflexivity].
  destruct (negb (stopped_at_cond t)); [exact IH | reflexivity].
Qed.

Lemma releases_start_capture_stream (w : capture_world) (f : AudioFormat)
    (id : string) :
  releases_what_it_takes (start_capture_stream w f id).
Proof.
  unfold start_capture_stream.
  repeat (apply releases_bind;
          [first [reflexivity | apply releases_exit_on_failed]
          | intros ? ]).
  apply releases_bind.
  - destruct (FAILED _); [ | reflexivity].
    repeat (apply releases_bind;
            [first [reflexivity | apply releases_exit_on_failed]
            | intros ? ]).
    apply releases_exit_on_failed.
  - intros _.
    repeat (apply releases_bind;
            [first [reflexivity | apply releases_exit_on_failed]
            | intros ? ]).
    reflexivity.
Qed.

Lemma releases_do_loopback_recording (w : capture_world) (f : AudioFormat)
    (id : string) :
  releases_what_it_takes (do_loopback_recording w f id).
Proof.
  unfold do_loopback_recording.
  apply releases_bind; [apply releases_start_capture_stream | ].
  intros [[f' fmt] d].
  apply releases_bind; [apply releases_capture_loop | intros _].
  apply releases_bind; reflexivity.
Qed.

Lemma startup_ok_inv (w : capture_world) :
  startup_ok w = true ->
  pre_init_ok w = true /\ init_ok w = true /\ post_init_ok w = true.
Proof.
  unfold startup_ok. rewrite !andb_true_iff. intros [[H1 H2] H3]. auto.
Qed.

(** A start-up on which nothing fails ends with the stream started. *)
Lemma start_capture_stream_started (w : capture_world) (f : AudioFormat)
    (id : string) :
  startup_ok w = true ->
  exists t0 f',
    snd (set_format f (capture_format w)) = Returned f' /\
    reached_running t0 = true /\
    start_capture_stream w f id
    = (t0, Returned (f', capture_format w, tick_duration w)).
Proof.
  intros H. destruct (startup_ok_inv w H) as (Hpre & Hinit & Hpost).
  unfold capture_format, tick_duration.
  destruct (start_capture_stream_eq w f id Hpre) as (f' & Ef & Es).
  rewrite (finish_start_ok w f' Hpost) in Es.
  unfold init_ok in Hinit. rewrite !FAILED_SUCCEEDED in Es.
  assert (Hstart : SUCCEEDED (cw_hr_start w) = true).
  { unfold post_init_ok in Hpost. rewrite !andb_true_iff in Hpost. tauto. }
  destruct (SUCCEEDED (cw_hr_initialize w AUDCLNT_STREAMFLAGS_LOOPBACK));
    [ | destruct (SUCCEEDED (cw_hr_initialize w AUDCLNT_STREAMFLAGS_EVENTCALLBACK));
        [ | discriminate ] ];
    cbn [negb] in Es; unfold prepend in Es; cbn [fst snd] in Es.
  - eexists. exists f'. split; [rewrite Ef; reflexivity | ].
    split; [ | exact Es].
    rewrite reached_running_app. simpl. rewrite Hstart. reflexivity.
  - eexists. exists f'. split; [rewrite Ef; reflexivity | ].
    split; [ | exact Es].
    rewrite reached_running_app. simpl. rewrite Hstart. reflexivity.
Qed.

Lemma with_ticks_same (w : capture_world) : with_ticks w (cw_ticks w) = w.
Proof. destruct w. reflexivity. Qed.

(** After a start-up on which nothing fails the routine is its loop over
    the ticks of the world, then [Stop]. *)
Lemma do_loopback_recording_started (w : capture_world) (f : AudioFormat)
    (id : string) :
  startup_ok w = true ->
  exists t0 f',
    snd (set_format f (capture_format w)) = Returned f' /\
    reached_running t0 = true /\
    forall ticks : list tick,
      do_loopback_recording (with_ticks w ticks) f id
      = prepend t0
          (capture_loop (tick_duration w) (capture_format w) ticks ;;;
           call Stop (cw_hr_stop w) ;;;
           ret f').
Proof.
  intros H.
  destruct (start_capture_stream_started w f id H) as (t0 & f' & Hf & Hr & Es).
  exists t0, f'. split; [exact Hf | split; [exact Hr | ]].
  intros ticks. unfold do_loopback_recording.
  change (start_capture_stream (with_ticks w ticks) f id)
    with (start_capture_stream w f id).
  rewrite Es, bind_pair. reflexivity.
Qed.

Lemma acquires_tick (d : Z) (fmt : WAVEFORMATEX) (t : tick) :
  tick_completes t = true ->
  (acquires (fst (loop_body d fmt t)) <= 1)%nat /\
  releases (fst (loop_body d fmt t)) = acquires (fst (loop_body d fmt t)).
Proof.
  intros H. rewrite (loop_body_completes d fmt t H).
  destruct (tick_completes_inv t H) as (_ & _ & [H3 | (H3 & H4 & _)]);
    rewrite H3; unfold acquires, releases; cbn.
  - auto.
  - rewrite FAILED_SUCCEEDED in H4. apply negb_false_iff in H4.
    rewrite H4. cbn. auto.
Qed.

(** C6.  In every run of [do_loopback_recording], failing ones included,
    each successful [GetBuffer] is followed by the sink call and by
    [ReleaseBuffer] before anything else happens, and no buffer is held
    when the run ends.  And when, after a start-up on which nothing
    fails and ticks [pre] that left the loop running, the flag is read
    set at the condition of a tick [t] whose calls succeed, the run is
    the run up to [t], the events of [t], in which at most one buffer is
    acquired and it is released, then [Stop], and the routine returns. *)
Theorem stop_ends_loop_and_buffers_are_released :
  forall (w : capture_world) (f : AudioFormat) (id : string),
    acquire_release_paired (fst (do_loopback_recording w f id)) = true
    /\ (forall (pre : list tick) (t : tick) (later : list tick),
          startup_ok w = true ->
          cw_ticks w = pre ++ t :: later ->
          forallb keeps_running pre = true ->
          tick_completes t = true ->
          stopped_at_cond t = true ->
          snd (do_loopback_recording (with_ticks w pre) f id) = Waiting
          /\ fst (do_loopback_recording w f id)
             = fst (do_loopback_recording (with_ticks w pre) f id)
                 ++ fst (loop_body (tick_duration w) (capture_format w) t)
                 ++ [ECall Stop (cw_hr_stop w)]
          /\ snd (do_loopback_recording w f id)
             = snd (set_format f (capture_format w))
          /\ returns_to_caller (snd (do_loopback_recording w f id)) = true
          /\ (acquires (fst (loop_body (tick_duration w) (capture_format w) t))
              <= 1)%nat
          /\ releases (fst (loop_body (tick_duration w) (capture_format w) t))
             = acquires (fst (loop_body (tick_duration w) (capture_format w) t))).
Proof.
  intros w f id. split.
  - pose proof (releases_do_loopback_recording w f id) as H.
    unfold releases_what_it_takes in H. unfold acquire_release_paired.
    rewrite H. reflexivity.
  - intros pre t later Hok Hticks Hpre Hc Hs.
    destruct (do_loopback_recording_started w f id Hok)
      as (t0 & f' & Hf & _ & Hrun).
    pose proof (Hrun (cw_ticks w)) as Hw. rewrite with_ticks_same, Hticks in Hw.
    pose proof (Hrun (pre ++ [])) as Hp. rewrite app_nil_r in Hp at 1.
    rewrite (capture_loop_app _ _ pre (t :: later) Hpre) in Hw.
    rewrite (capture_loop_app _ _ pre [] Hpre) in Hp.
    rewrite (capture_loop_stop _ _ _ _ Hc Hs) in Hw.
    unfold prepend, call, ret in Hw, Hp.
    cbn [capture_loop bind fst snd app] in Hw, Hp.
    rewrite Hw, Hp, Hf. cbn [fst snd returns_to_caller].
    rewrite !app_nil_r, <- !app_assoc.
    repeat split; try reflexivity; apply (acquires_tick _ _ _ Hc).
Qed.

(** C9: when, after a start-up on which nothing fails and ticks [pre]
    that left the loop running, the timer wait of the next tick comes back
    with an error, the loop is left at once: the trace grows by that wait
    and by [Stop] only, no warning or error line is added, and the routine
    returns to its caller what it returns after a requested stop. *)
Theorem timer_failure_ends_as_stop :
  forall (w : capture_world) (f : AudioFormat) (id : string)
         (pre : list tick) (t : tick) (later : list tick),
    startup_ok w = true ->
    cw_ticks w = pre ++ t :: later ->
    forallb keeps_running pre = true ->
    wait_ec t <> 0 ->
    fst (do_loopback_recording w f id)
    = fst (do_loopback_recording (with_ticks w pre) f id)
        ++ [ETimerWait (tick_duration w) (wait_ec t);
            ECall Stop (cw_hr_stop w)]
    /\ filter is_log (fst (do_loopback_recording w f id))
       = filter is_log (fst (do_loopback_recording (with_ticks w pre) f id))
    /\ snd (do_loopback_recording w f id)
       = snd (set_format f (capture_format w))
    /\ returns_to_caller (snd (do_loopback_recording w f id)) = true
    /\ (forall stop : tick,
          tick_completes stop = true -> stopped_at_cond stop = true ->
          snd (do_loopback_recording (with_ticks w (pre ++ [stop])) f id)
          = snd (do_loopback_recording w f id)).
Proof.
  intros w f id pre t later Hok Hticks Hpre Hec.
  destruct (do_loopback_recording_started w f id Hok)
    as (t0 & f' & Hf & _ & Hrun).
  pose proof (Hrun (cw_ticks w)) as Hw. rewrite with_ticks_same, Hticks in Hw.
  pose proof (Hrun (pre ++ [])) as Hp. rewrite app_nil_r in Hp at 1.
  rewrite (capture_loop_app _ _ pre (t :: later) Hpre) in Hw.
  rewrite (capture_loop_app _ _ pre [] Hpre) in Hp.
  rewrite (capture_loop_break _ _ _ _ Hec) in Hw.
  unfold prepend, call, ret in Hw, Hp.
  cbn [capture_loop bind fst snd app] in Hw, Hp.
  rewrite Hw, Hp, Hf. cbn [fst snd returns_to_caller].
  rewrite !app_nil_r, <- !app_assoc.
  repeat split; try reflexivity.
  { rewrite !filter_app. cbn. rewrite !app_nil_r. reflexivity. }
  intros stop Hc Hs. rewrite (Hrun (pre ++ [stop])).
  rewrite (capture_loop_app _ _ pre [stop] Hpre).
  rewrite (capture_loop_stop _ _ _ _ Hc Hs).
  unfold prepend, call, ret. cbn [bind fst snd]. reflexivity.
Qed.

Lemma bind_fst_prefix {A B} (m : M A) (k : A -> M B) :
  exists rest, fst (bind m k) = fst m ++ rest.
Proof.
  destruct m as [t [a | c | ]]; simpl.
  - destruct (k a) as [u o]. exists u. reflexivity.
  - exists []. rewrite app_nil_r. reflexivity.
  - exists []. rewrite app_nil_r. reflexivity.
Qed.

(** C10: once the start-up has succeeded and the timer fires, the body of
    the first tick runs before the flag is read at all: its events follow
    the start-up in the trace whatever the values of the flag.  When no
    call of that tick fails these events are the timer wait, the
    packet-size poll and, if a packet is pending, acquire, sink call and
    release; and when the flag was set from the beginning, exactly that one
    tick runs before [Stop]. *)
Theorem first_tick_runs_before_flag_is_read :
  forall (w : capture_world) (f : AudioFormat) (id : string)
         (t : tick) (later : list tick),
    startup_ok w = true ->
    cw_ticks w = t :: later ->
    reached_running (fst (do_loopback_recording (with_ticks w []) f id)) = true
    /\ (exists rest,
          fst (do_loopback_recording w f id)
          = fst (do_loopback_recording (with_ticks w []) f id)
              ++ fst (loop_body (tick_duration w) (capture_format w) t)
              ++ rest)
    /\ (tick_completes t = true ->
        fst (loop_body (tick_duration w) (capture_format w) t)
        = ETimerWait (tick_duration w) (wait_ec t)
          :: ECall GetNextPacketSize (hr_packet t)
          :: (if next_packet_size t =? 0 then []
              else [ECall GetBuffer (hr_buffer t);
                    EBroadcast (delivered_count (capture_format w) t)
                               (nBlockAlign (capture_format w));
                    ECall (ReleaseBuffer (numFramesAvailable t))
                          (hr_release t)]))
    /\ (tick_completes t = true ->
        stopped_at_top t = true -> stopped_at_cond t = true ->
        fst (do_loopback_recording w f id)
        = fst (do_loopback_recording (with_ticks w []) f id)
            ++ fst (loop_body (tick_duration w) (capture_format w) t)
            ++ [ECall Stop (cw_hr_stop w)]).
Proof.
  intros w f id t later Hok Hticks.
  destruct (do_loopback_recording_started w f id Hok)
    as (t0 & f' & Hf & Hr & Hrun).
  pose proof (Hrun (cw_ticks w)) as Hw. rewrite with_ticks_same, Hticks in Hw.
  pose proof (Hrun []) as Hp.
  unfold prepend, call, ret in Hp. cbn [capture_loop bind fst snd] in Hp.
  rewrite Hp. cbn [fst]. rewrite app_nil_r.
  split; [exact Hr | split; [ | split]].
  - rewrite Hw. unfold prepend. cbn [fst capture_loop].
    rewrite bind_assoc.
    destruct (bind_fst_prefix
                (loop_body (tick_duration w) (capture_format w) t)
                (fun c =>
                   bind (match c with
                         | ToCondition =>
                             if negb (stopped_at_cond t)
                             then capture_loop (tick_duration w)
                                               (capture_format w) later
                             else ret tt
                         | Break => ret tt
                         end)
                        (fun _ => call Stop (cw_hr_stop w) ;;; ret f')))
      as [rest Hrest].
    exists rest. rewrite Hrest. reflexivity.
  - intros Hc. rewrite (loop_body_completes _ _ _ Hc). reflexivity.
  - intros Hc _ Hs. rewrite Hw, (capture_loop_stop _ _ _ _ Hc Hs).
    unfold prepend, call, ret. cbn [bind fst snd app]. reflexivity.
Qed.

(* ------------------------------------------------------------------ *)
(** ** More on format resolution *)

(** X1: whatever the native format, [set_format] stores no tag other
    than PCM or IEEE_FLOAT: the tag of the message afterwards is one of
    these two or the one it had before.  So a message whose tag is
    Unknown, PCM or IEEE_FLOAT stays so, and the tag EXTENSIBLE is never
    written.  Channels, sample rate and bits per sample are those of the
    native format in every case. *)
Theorem set_format_keeps_tag_canonical :
  forall (_format : AudioFormat) (format : WAVEFORMATEX),
  exists resolved,
    set_format _format format = ([], Returned resolved)
    /\ (format_tag resolved = WAVE_FORMAT_PCM
        \/ format_tag resolved = WAVE_FORMAT_IEEE_FLOAT
        \/ format_tag resolved = format_tag _format)
    /\ (canonical_tag (format_tag _format) = true ->
        canonical_tag (format_tag resolved) = true)
    /\ channels resolved = nChannels format
    /\ sample_rate resolved = nSamplesPerSec format
    /\ bits_per_sample resolved = wBitsPerSample format.
Proof.
  intros f w. unfold set_format. eexists. split; [reflexivity | ].
  cbn [format_tag channels sample_rate bits_per_sample set_channels
       set_sample_rate set_bits_per_sample].
  destruct (Z.eqb_spec (wFormatTag w) WAVE_FORMAT_PCM) as [Ep | _];
    [ | destruct (Z.eqb_spec (wFormatTag w) WAVE_FORMAT_IEEE_FLOAT)
          as [Ef | _] ];
    cbn [orb].
  - rewrite Ep. repeat split; auto.
  - rewrite Ef. repeat split; auto.
  - destruct (wFormatTag w =? WAVE_FORMAT_EXTENSIBLE);
      [ destruct (IsEqualGUID (SubFormat w) KSDATAFORMAT_SUBTYPE_PCM);
        [ | destruct (IsEqualGUID (SubFormat w)
                                  KSDATAFORMAT_SUBTYPE_IEEE_FLOAT) ] | ];
      repeat split; auto.
Qed.

Lemma set_format_value (f : AudioFormat) (w : WAVEFORMATEX) :
  set_format f w = ([], Returned
    (mkAudioFormat
       (if (wFormatTag w =? WAVE_FORMAT_PCM)
           || (wFormatTag w =? WAVE_FORMAT_IEEE_FLOAT)
        then wFormatTag w
        else if wFormatTag w =? WAVE_FORMAT_EXTENSIBLE then
          if IsEqualGUID (SubFormat w) KSDATAFORMAT_SUBTYPE_PCM
          then WAVE_FORMAT_PCM
          else if IsEqualGUID (SubFormat w) KSDATAFORMAT_SUBTYPE_IEEE_FLOAT
          then WAVE_FORMAT_IEEE_FLOAT
          else format_tag f
        else format_tag f)
       (nChannels w) (nSamplesPerSec w) (wBitsPerSample w))).
Proof.
  unfold set_format.
  destruct ((wFormatTag w =? WAVE_FORMAT_PCM)
            || (wFormatTag w =? WAVE_FORMAT_IEEE_FLOAT));
    [reflexivity | ].
  destruct (wFormatTag w =? WAVE_FORMAT_EXTENSIBLE); [ | reflexivity].
  destruct (IsEqualGUID (SubFormat w) KSDATAFORMAT_SUBTYPE_PCM);
    [reflexivity | ].
  destruct (IsEqualGUID (SubFormat w) KSDATAFORMAT_SUBTYPE_IEEE_FLOAT);
    reflexivity.
Qed.

(** X2: resolving the same native format a second time changes
    nothing: [set_format] applied to its own result gives that result. *)
Theorem set_format_idempotent :
  forall (_format resolved : AudioFormat) (format : WAVEFORMATEX),
    snd (set_format _format format) = Returned resolved ->
    set_format resolved format = ([], Returned resolved).
Proof.
  intros f r w H. rewrite set_format_value in H. cbn [snd] in H.
  injection H as <-. rewrite set_format_value. cbn [format_tag].
  destruct ((wFormatTag w =? WAVE_FORMAT_PCM)
            || (wFormatTag w =? WAVE_FORMAT_IEEE_FLOAT));
    [reflexivity | ].
  destruct (wFormatTag w =? WAVE_FORMAT_EXTENSIBLE); [ | reflexivity].
  destruct (IsEqualGUID (SubFormat w) KSDATAFORMAT_SUBTYPE_PCM);
    [reflexivity | ].
  destruct (IsEqualGUID (SubFormat w) KSDATAFORMAT_SUBTYPE_IEEE_FLOAT);
    reflexivity.
Qed.

Lemma set_format_handle_extensible_eq (f : AudioFormat) (w : WAVEFORMATEX) :
  set_format f (handle_extensible w) = set_format f w.
Proof.
  unfold handle_extensible.
  destruct (wFormatTag w =? WAVE_FORMAT_EXTENSIBLE) eqn:E; [ | reflexivity].
  destruct (IsEqualGUID (SubFormat w) KSDATAFORMAT_SUBTYPE_IEEE_FLOAT) eqn:Ef;
    [ | reflexivity].
  rewrite !set_format_value.
  cbn [with_wFormatTag wFormatTag nChannels nSamplesPerSec wBitsPerSample
       SubFormat].
  rewrite E. apply Z.eqb_eq in E. rewrite E.
  apply IsEqualGUID_eq in Ef. rewrite Ef. reflexivity.
Qed.

(** X3: the in-place rewrite of lines 99-105 does not change what
    [set_format] resolves: the message is the same whether the mix format
    is resolved before or after it.  The rewrite touches the tag only and
    a second application changes nothing. *)
Theorem set_format_after_handle_extensible :
  forall (_format : AudioFormat) (format : WAVEFORMATEX),
    set_format _format (handle_extensible format) = set_format _format format
    /\ handle_extensible (handle_extensible format) = handle_extensible format
    /\ with_wFormatTag format (wFormatTag (handle_extensible format))
       = handle_extensible format.
Proof.
  intros f w. split; [apply set_format_handle_extensible_eq | ].
  unfold handle_extensible.
  destruct (wFormatTag w =? WAVE_FORMAT_EXTENSIBLE) eqn:E.
  - destruct (IsEqualGUID (SubFormat w) KSDATAFORMAT_SUBTYPE_IEEE_FLOAT) eqn:Ef.
    + split; reflexivity.
    + rewrite E, Ef. split; [reflexivity | destruct w; reflexivity].
  - rewrite E. split; [reflexivity | destruct w; reflexivity].
Qed.

(* ------------------------------------------------------------------ *)
(** ** More on [exit_on_failed] and the default endpoint *)

Lemma HRESULT_CODE_mod (hr : HRESULT) : HRESULT_CODE hr = hr mod 65536.
Proof.
  unfold HRESULT_CODE. change 65535 with (Z.ones 16).
  rewrite Z.land_ones by lia. reflexivity.
Qed.

Lemma HRESULT_FROM_WIN32_value (x : Z) :
  0 < x < 65536 -> HRESULT_FROM_WIN32 x = x + 2147942400 - 4294967296.
Proof.
  intros Hx. unfold HRESULT_FROM_WIN32.
  destruct (Z.leb_spec x 0) as [H | _]; [lia | ].
  assert (Ha : Z.land x 65535 = x).
  { change 65535 with (Z.ones 16). rewrite Z.land_ones by lia.
    apply Z.mod_small. lia. }
  rewrite Ha, <- Z.lor_assoc.
  change (Z.lor (Z.shiftl FACILITY_WIN32 16) 2147483648) with 2147942400.
  assert (Hd : Z.land x 2147942400 = 0).
  { rewrite <- Ha, <- Z.land_assoc.
    change (Z.land 65535 2147942400) with 0. apply Z.land_0_r. }
  rewrite <- (Z.lxor_lor _ _ Hd), <- (Z.add_nocarry_lxor _ _ Hd).
  unfold to_int32.
  change (2 ^ 31) with 2147483648. change (2 ^ 32) with 4294967296.
  replace (x + 2147942400 + 2147483648)
    with (x + 458752 + 1 * 4294967296) by lia.
  rewrite Z.mod_add by lia. rewrite Z.mod_small by lia. lia.
Qed.

(** X4: for a Win32 error code between 1 and 65535, the HRESULT that
    [HRESULT_FROM_WIN32] builds is a failure, and [exit_on_failed] on it
    logs the system text of that very code before it exits. *)
Theorem exit_on_failed_logs_win32_code :
  forall (x : Z) (message func : string),
    0 < x < 65536 ->
    exit_on_failed (HRESULT_FROM_WIN32 x) message func
    = ([EError (String.append "exit_on_failed "
                  (String.append func
                     (String.append " "
                        (String.append message
                           (String.append " "
                              (wchars_to_utf8 (wstr_win_err x)))))))],
       Exited (-1)).
Proof.
  intros x message func Hx.
  unfold exit_on_failed, error_line.
  rewrite HRESULT_CODE_mod, (HRESULT_FROM_WIN32_value x Hx).
  replace ((x + 2147942400 - 4294967296) mod 65536) with x.
  - unfold FAILED. destruct (Z.ltb_spec (x + 2147942400 - 4294967296) 0);
      [reflexivity | lia].
  - replace (x + 2147942400 - 4294967296) with (x + (-32761) * 65536) by lia.
    rewrite Z.mod_add by lia. symmetry. apply Z.mod_small. lia.
Qed.

(** X5: the error line keeps only the low 16 bits of the HRESULT: two
    failed HRESULTs with the same code word, whatever their facility,
    make [exit_on_failed] log the same line. *)
Theorem exit_on_failed_ignores_facility :
  forall (hr hr' : HRESULT) (message func : string),
    FAILED hr = true -> FAILED hr' = true ->
    hr mod 65536 = hr' mod 65536 ->
    exit_on_failed hr message func = exit_on_failed hr' message func.
Proof.
  intros hr hr' message func H H' Hc.
  unfold exit_on_failed, error_line. rewrite H, H', !HRESULT_CODE_mod, Hc.
  reflexivity.
Qed.

(** X6: [get_default_endpoint] comes back to its caller exactly when the
    enumerator is created and the default query either answers
    ERROR_NOT_FOUND or succeeds together with [GetId]; in every other
    case the process exits.  What it returns is the empty string in the
    first case and the converted id in the second, and [GetId] is not
    called when there is no default device. *)
Theorem get_default_endpoint_returns_iff :
  forall w : default_world,
    returns_to_caller (snd (get_default_endpoint w)) = default_returns w
    /\ (default_returns w = true ->
        snd (get_default_endpoint w) = Returned (default_id_of w))
    /\ (default_returns w = false ->
        snd (get_default_endpoint w) = Exited (-1))
    /\ (dw_hr_default w = HRESULT_FROM_WIN32 ERROR_NOT_FOUND ->
        existsb is_get_id (fst (get_default_endpoint w)) = false).
Proof.
  intros w. rewrite get_default_endpoint_eq.
  unfold default_returns, default_id_of. rewrite !FAILED_SUCCEEDED.
  destruct (SUCCEEDED (dw_hr_create w)); cbn [negb andb].
  2:{ repeat split; try reflexivity; discriminate. }
  destruct (Z.eqb_spec (dw_hr_default w) (HRESULT_FROM_WIN32 ERROR_NOT_FOUND))
    as [E | E]; cbn [orb].
  { repeat split; try reflexivity; discriminate. }
  destruct (SUCCEEDED (dw_hr_default w)); cbn [negb andb].
  2:{ repeat split; try reflexivity; try discriminate; try contradiction. }
  destruct (SUCCEEDED (dw_hr_get_id w)); cbn [negb];
    repeat split; try reflexivity; try discriminate; try contradiction.
Qed.

(* ------------------------------------------------------------------ *)
(** ** More on endpoint enumeration *)

Lemma bind_snd {A B} (m : M A) (k : A -> M B) :
  snd (bind m k)
  = match snd m with
    | Returned a => snd (k a)
    | Exited c => Exited c
    | Waiting => Waiting
    end.
Proof.
  destruct m as [t [a | c | ]]; simpl; try reflexivity.
  destruct (k a). reflexivity.
Qed.

Lemma checked_snd {B} (c : os_call) (h : HRESULT) (message func : string)
    (k : M B) :
  snd (hr <- call c h ;; exit_on_failed hr message func ;;; k)
  = if SUCCEEDED h then snd k else Exited (-1).
Proof.
  rewrite checked_call_eq, FAILED_SUCCEEDED.
  destruct (SUCCEEDED h); reflexivity.
Qed.

Lemma get_default_endpoint_snd (w : default_world) :
  snd (get_default_endpoint w)
  = if default_returns w then Returned (default_id_of w) else Exited (-1).
Proof.
  rewrite get_default_endpoint_eq.
  unfold default_returns, default_id_of. rewrite !FAILED_SUCCEEDED.
  destruct (SUCCEEDED (dw_hr_create w)); [ | reflexivity].
  destruct (dw_hr_default w =? HRESULT_FROM_WIN32 ERROR_NOT_FOUND);
    [reflexivity | ].
  destruct (SUCCEEDED (dw_hr_default w)); [ | reflexivity].
  destruct (SUCCEEDED (dw_hr_get_id w)); reflexivity.
Qed.

Lemma endpoint_body_snd (data_flow : EDataFlow) (d : device_world)
    (default_id : string) (i : nat) (l : endpoint_list_t) (acc : Z) :
  snd (endpoint_body data_flow d default_id i (l, acc))
  = if device_ok d
    then Returned (l ++ [endpoint_entry data_flow d],
                   if String.eqb (wchars_to_mbs (dev_id d)) default_id
                   then to_int32 (Z.of_nat i) else acc)
    else Exited (-1).
Proof.
  unfold endpoint_body, device_ok. rewrite !checked_snd.
  destruct (SUCCEEDED (dev_hr_item d)); [ | reflexivity].
  destruct (SUCCEEDED (dev_hr_get_id d)); [ | reflexivity].
  destruct (SUCCEEDED (dev_hr_open_props d)); [ | reflexivity].
  destruct (SUCCEEDED (dev_hr_get_value d)); reflexivity.
Qed.

Lemma endpoint_loop_snd (data_flow : EDataFlow) (item : nat -> device_world)
    (default_id : string) (n : nat) :
  forall (i : nat) (l : endpoint_list_t) (acc : Z),
    snd (endpoint_loop data_flow item default_id n i (l, acc))
    = if forallb (fun k => device_ok (item k)) (seq i n)
      then Returned
             (l ++ map (fun k => endpoint_entry data_flow (item k)) (seq i n),
              last_match default_id
                (map (fun k => wchars_to_mbs (dev_id (item k))) (seq i n))
                i acc)
      else Exited (-1).
Proof.
  induction n as [ | n IH]; intros i l acc.
  - cbn. rewrite app_nil_r. reflexivity.
  - cbn [endpoint_loop seq forallb map last_match].
    rewrite bind_snd, endpoint_body_snd.
    destruct (device_ok (item i)); [ | reflexivity].
    cbn [andb]. rewrite IH, <- app_assoc. reflexivity.
Qed.

Lemma flow_body_snd (w : enum_world) (data_flow : EDataFlow)
    (l : endpoint_list_t) (acc : Z) :
  snd (flow_body w data_flow (l, acc))
  = if pass_ok (ew_pass w data_flow)
    then Returned
           (l ++ pass_entries data_flow (ew_pass w data_flow),
            last_match (default_id_of (pw_default (ew_pass w data_flow)))
              (map (fun k => wchars_to_mbs
                               (dev_id (pw_item (ew_pass w data_flow) k)))
                   (seq 0 (pw_count (ew_pass w data_flow))))
              0 (-1))
    else Exited (-1).
Proof.
  unfold flow_body, pass_ok, pass_entries. rewrite !checked_snd.
  destruct (SUCCEEDED (pw_hr_create (ew_pass w data_flow))); [ | reflexivity].
  destruct (SUCCEEDED (pw_hr_enum (ew_pass w data_flow))); [ | reflexivity].
  destruct (SUCCEEDED (pw_hr_count (ew_pass w data_flow))); [ | reflexivity].
  rewrite bind_snd, get_default_endpoint_snd.
  destruct (default_returns (pw_default (ew_pass w data_flow)));
    [ | reflexivity].
  cbn [fst andb]. apply endpoint_loop_snd.
Qed.

(** What [get_endpoint_list] gives back, in closed form. *)
Lemma get_endpoint_list_snd (w : enum_world) (l : endpoint_list_t) :
  snd (get_endpoint_list w l)
  = if enumeration_ok w
    then Returned
           (last_match (default_id_of (pw_default (ew_pass w eCapture)))
                       (recording_ids w) 0 (-1),
            l ++ pass_entries eRender (ew_pass w eRender)
              ++ pass_entries eCapture (ew_pass w eCapture))
    else Exited (-1).
Proof.
  unfold get_endpoint_list, enumeration_ok.
  rewrite bind_snd, get_default_endpoint_snd.
  destruct (default_returns (ew_default w)); [ | reflexivity].
  rewrite bind_snd. cbn [flow_loop].
  rewrite bind_snd, flow_body_snd.
  destruct (pass_ok (ew_pass w eRender)); [ | reflexivity].
  rewrite bind_snd, flow_body_snd.
  destruct (pass_ok (ew_pass w eCapture)); [ | reflexivity].
  cbn. rewrite <- app_assoc. reflexivity.
Qed.

(** X7: when [get_endpoint_list] returns, the list it leaves is the
    list it was given, untouched and in front, followed by one pair per
    playback device and then one pair per recording device, each
    collection in index order, the names labelled by direction.  Its
    length grows by the two device counts. *)
Theorem get_endpoint_list_appends :
  forall (w : enum_world) (endpoint_list endpoints : endpoint_list_t)
         (default_index : Z),
    snd (get_endpoint_list w endpoint_list)
    = Returned (default_index, endpoints) ->
    endpoints
    = endpoint_list ++ pass_entries eRender (ew_pass w eRender)
        ++ pass_entries eCapture (ew_pass w eCapture)
    /\ List.length endpoints
       = (List.length endpoint_list + pw_count (ew_pass w eRender)
          + pw_count (ew_pass w eCapture))%nat.
Proof.
  intros w l l' idx H. rewrite get_endpoint_list_snd in H.
  destruct (enumeration_ok w); [ | discriminate].
  injection H as _ <-. split; [reflexivity | ].
  unfold pass_entries.
  rewrite !length_app, !length_map, !length_seq. lia.
Qed.

(** X8: the routine never clears the list it is given.  Called again
    on the list a first call left, on an unchanged machine, it returns
    the same index and a list in which every device appears twice. *)
Theorem get_endpoint_list_twice_duplicates :
  forall (w : enum_world) (endpoint_list endpoints : endpoint_list_t)
         (default_index : Z),
    snd (get_endpoint_list w endpoint_list)
    = Returned (default_index, endpoints) ->
    snd (get_endpoint_list w endpoints)
    = Returned
        (default_index,
         endpoint_list
           ++ (pass_entries eRender (ew_pass w eRender)
                 ++ pass_entries eCapture (ew_pass w eCapture))
           ++ (pass_entries eRender (ew_pass w eRender)
                 ++ pass_entries eCapture (ew_pass w eCapture))).
Proof.
  intros w l l' idx H. rewrite get_endpoint_list_snd in *.
  destruct (enumeration_ok w); [ | discriminate].
  injection H as <- <-. rewrite <- !app_assoc. reflexivity.
Qed.

Lemma last_match_last (default_id : string) (ids : list string) :
  forall (i : nat) (acc : Z),
    (last_match default_id ids i acc = acc /\
     forall id, In id ids -> id <> default_id)
    \/ exists k,
         nth_error ids k = Some default_id /\
         (forall j, (k < j)%nat -> nth_error ids j <> Some default_id) /\
         last_match default_id ids i acc = to_int32 (Z.of_nat (i + k)).
Proof.
  induction ids as [ | id more IH]; intros i acc.
  - left. split; [reflexivity | intros id []].
  - cbn [last_match].
    destruct (IH (S i)
                 (if String.eqb id default_id then to_int32 (Z.of_nat i)
                  else acc))
      as [[Hr Hn] | (k & Hk & Hl & Hr)].
    + destruct (String.eqb_spec id default_id) as [E | E].
      * right. exists 0%nat. rewrite Nat.add_0_r. subst id.
        split; [reflexivity | split; [ | exact Hr]].
        intros [ | j] Hj; [lia | ]. cbn. intros Hs.
        apply nth_error_In in Hs. exact (Hn _ Hs eq_refl).
      * left. split; [exact Hr | ].
        intros x [<- | Hx]; [exact E | exact (Hn _ Hx)].
    + right. exists (S k). split; [exact Hk | split].
      * intros [ | j] Hj; [lia | ]. cbn. apply Hl. lia.
      * rewrite Hr. f_equal. lia.
Qed.

(** X9: when [get_endpoint_list] returns and the recording collection
    holds at most 2^31 devices, the index is either -1, and then no
    recording device has the default id, or the position in the recording
    collection of the last device whose id equals the default id. *)
Theorem get_endpoint_list_index_range :
  forall (w : enum_world) (endpoint_list endpoints : endpoint_list_t)
         (default_index : Z),
    snd (get_endpoint_list w endpoint_list)
    = Returned (default_index, endpoints) ->
    Z.of_nat (pw_count (ew_pass w eCapture)) <= 2^31 ->
    (default_index = -1 /\
     forall id, In id (recording_ids w) ->
                id <> default_id_of (pw_default (ew_pass w eCapture)))
    \/ exists k,
         default_index = Z.of_nat k /\
         (k < pw_count (ew_pass w eCapture))%nat /\
         nth_error (recording_ids w) k
         = Some (default_id_of (pw_default (ew_pass w eCapture))) /\
         forall j, (k < j)%nat ->
                   nth_error (recording_ids w) j
                   <> Some (default_id_of (pw_default (ew_pass w eCapture))).
Proof.
  intros w l l' idx H Hc. rewrite get_endpoint_list_snd in H.
  destruct (enumeration_ok w); [ | discriminate].
  injection H as <- _.
  destruct (last_match_last (default_id_of (pw_default (ew_pass w eCapture)))
                            (recording_ids w) 0 (-1))
    as [[Hr Hn] | (k & Hk & Hl & Hr)].
  - left. split; assumption.
  - right. exists k.
    assert (Hlt : (k < pw_count (ew_pass w eCapture))%nat).
    { assert (Hs : nth_error (recording_ids w) k <> None) by congruence.
      apply nth_error_Some in Hs. unfold recording_ids in Hs.
      rewrite length_map, length_seq in Hs. exact Hs. }
    split; [ | split; [exact Hlt | split; assumption]].
    rewrite Hr. cbn [Nat.add]. unfold to_int32.
    rewrite Z.mod_small by lia. lia.
Qed.

(** X10: the default id queried at line 202, before the loop, is never
    used: with any other answer on which that query returns, the routine
    gives the same result.  A failure of that query is fatal all the
    same: the process exits inside it, before anything is enumerated. *)
Theorem get_endpoint_list_first_query_unused :
  forall (w : enum_world) (endpoint_list : endpoint_list_t),
    (forall dw : default_world,
        default_returns dw = true ->
        default_returns (ew_default w) = true ->
        snd (get_endpoint_list (with_first_default w dw) endpoint_list)
        = snd (get_endpoint_list w endpoint_list))
    /\ (default_returns (ew_default w) = false ->
        get_endpoint_list w endpoint_list
        = (fst (get_default_endpoint (ew_default w)), Exited (-1))).
Proof.
  intros w l. split.
  - intros dw Hd Hw. rewrite !get_endpoint_list_snd.
    unfold enumeration_ok, recording_ids. cbn [with_first_default ew_default ew_pass].
    rewrite Hd, Hw. reflexivity.
  - intros Hw. unfold get_endpoint_list.
    pose proof (get_default_endpoint_snd (ew_default w)) as Hs.
    rewrite Hw in Hs.
    destruct (get_default_endpoint (ew_default w)) as [t o].
    cbn [snd] in Hs. subst o. reflexivity.
Qed.

(* ------------------------------------------------------------------ *)
(** ** More on the capture routine *)

Lemma capture_clean_app (t u : trace) :
  capture_clean (t ++ u) = capture_clean t && capture_clean u.
Proof. unfold capture_clean. apply forallb_app. Qed.

Lemma exits_bind {A B} (m : M A) (k : A -> M B) :
  exits_at_first_failure m -> (forall a, exits_at_first_failure (k a)) ->
  exits_at_first_failure (bind m k).
Proof.
  destruct m as [t [a | c | ]]; unfold exits_at_first_failure at 1; simpl.
  - intros Ht Hk. specialize (Hk a). unfold exits_at_first_failure in *.
    destruct (k a) as [t' [b | c | ]]; simpl in *.
    + rewrite capture_clean_app, Ht, Hk. reflexivity.
    + destruct Hk as [-> (t0 & c0 & hr & msg & -> & Hf & Hu & Hm & Hc)].
      split; [reflexivity | ].
      exists (t ++ t0), c0, hr, msg.
      rewrite app_assoc, capture_clean_app, Ht, Hc. auto.
    + rewrite capture_clean_app, Ht, Hk. reflexivity.
  - intros H _. exact H.
  - intros H _. exact H.
Qed.

Lemma exits_checked {B} (c : os_call) (h : HRESULT) (message : string)
    (k : M B) :
  unchecked_call c = false -> message <> "" ->
  exits_at_first_failure k ->
  exits_at_first_failure
    (hr <- call c h ;; exit_on_failed hr message "" ;;; k).
Proof.
  intros Hu Hm Hk. rewrite checked_call_eq.
  destruct (FAILED h) eqn:Hf; unfold exits_at_first_failure in *; simpl.
  - split; [reflexivity | ]. exists [], c, h, message. auto.
  - destruct k as [t' [b | code | ]]; simpl in *.
    + rewrite Hf. simpl. exact Hk.
    + destruct Hk as [-> (t0 & c0 & hr & msg & -> & Hf0 & Hu0 & Hm0 & Hc)].
      split; [reflexivity | ].
      exists (ECall c h :: t0), c0, hr, msg. simpl. rewrite Hf, Hc. auto.
    + rewrite Hf. simpl. exact Hk.
Qed.

Lemma exits_checked_last (c : os_call) (h : HRESULT) (message : string) :
  unchecked_call c = false -> message <> "" ->
  exits_at_first_failure (hr <- call c h ;; exit_on_failed hr message "").
Proof.
  intros Hu Hm. unfold call. rewrite bind_pair. unfold exit_on_failed.
  destruct (FAILED h) eqn:Hf; unfold exits_at_first_failure; simpl.
  - split; [reflexivity | ]. exists [], c, h, message. auto.
  - rewrite Hf. reflexivity.
Qed.

Lemma exits_unchecked_event {B} (c : os_call) (h : HRESULT) (k : M B) :
  unchecked_call c = true ->
  exits_at_first_failure k ->
  exits_at_first_failure (prepend [ECall c h] k).
Proof.
  intros Hu Hk.
  assert (Hc : capture_clean [ECall c h] = true).
  { simpl. rewrite Hu. simpl. rewrite andb_false_r. reflexivity. }
  unfold exits_at_first_failure, prepend in *.
  destruct k as [t' [b | code | ]]; cbn [fst snd] in *.
  - rewrite capture_clean_app, Hc, Hk. reflexivity.
  - destruct Hk as [-> (t0 & c0 & hr & msg & -> & Hf0 & Hu0 & Hm0 & Hc0)].
    split; [reflexivity | ].
    exists ([ECall c h] ++ t0), c0, hr, msg.
    rewrite app_assoc, capture_clean_app, Hc, Hc0. auto.
  - rewrite capture_clean_app, Hc, Hk. reflexivity.
Qed.

Lemma exits_loop_body (d : Z) (fmt : WAVEFORMATEX) (t : tick) :
  exits_at_first_failure (loop_body d fmt t).
Proof.
  rewrite loop_body_eq. unfold exits_at_first_failure.
  destruct (negb (wait_ec t =? 0)); [reflexivity | ].
  destruct (FAILED (hr_packet t)) eqn:Hp.
  { split; [reflexivity | ].
    exists [ETimerWait d (wait_ec t)], GetNextPacketSize, (hr_packet t),
           "pCaptureClient->GetNextPacketSize".
    repeat split; auto; discriminate. }
  destruct (next_packet_size t =? 0).
  { cbn. rewrite Hp. reflexivity. }
  destruct (FAILED (hr_buffer t)) eqn:Hb.
  { split; [reflexivity | ].
    exists [ETimerWait d (wait_ec t); ECall GetNextPacketSize (hr_packet t)],
           GetBuffer, (hr_buffer t), "pCaptureClient->GetBuffer".
    cbn. rewrite Hp. repeat split; auto; discriminate. }
  destruct (FAILED (hr_release t)) eqn:Hr.
  { split; [reflexivity | ].
    exists [ETimerWait d (wait_ec t); ECall GetNextPacketSize (hr_packet t);
            ECall GetBuffer (hr_buffer t);
            EBroadcast (delivered_count fmt t) (nBlockAlign fmt)],
           (ReleaseBuffer (numFramesAvailable t)), (hr_release t),
           "pCaptureClient->ReleaseBuffer".
    cbn. rewrite Hp, Hb. repeat split; auto; discriminate. }
  cbn. rewrite Hp, Hb, Hr. reflexivity.
Qed.

Lemma exits_capture_loop (d : Z) (fmt : WAVEFORMATEX) (ticks : list tick) :
  exits_at_first_failure (capture_loop d fmt ticks).
Proof.
  induction ticks as [ | t later IH]; [reflexivity | ].
  cbn [capture_loop].
  apply exits_bind; [apply exits_loop_body | ].
  intros [ | ]; [ | reflexivity].
  destruct (negb (stopped_at_cond t)); [exact IH | reflexivity].
Qed.

Lemma exits_start_capture_stream (w : capture_world) (f : AudioFormat)
    (id : string) :
  exits_at_first_failure (start_capture_stream w f id).
Proof.
  unfold start_capture_stream.
  repeat (apply exits_checked; [reflexivity | discriminate | ]).
  apply exits_bind; [reflexivity | intros f'].
  apply exits_checked; [reflexivity | discriminate | ].
  rewrite call_bind. apply exits_unchecked_event; [reflexivity | ].
  apply exits_bind.
  - destruct (FAILED _); [ | reflexivity].
    apply exits_bind; [reflexivity | intros _].
    apply exits_checked_last; [reflexivity | discriminate].
  - intros _.
    repeat (apply exits_checked; [reflexivity | discriminate | ]).
    reflexivity.
Qed.

(** X11: in every run of [do_loopback_recording], nothing happens
    after a failed call other than the error line and [exit(-1)], the
    loopback [Initialize] (answered by the fallback) and [Stop] (not
    looked at) excepted.  A run that returns, or is still waiting for the
    timer, has had no other failed call and has written no error line; a
    run that exits ends with the failed call and a line carrying a
    non-empty message for it. *)
Theorem do_loopback_recording_exits_at_first_failure :
  forall (w : capture_world) (f : AudioFormat) (id : string),
    exits_at_first_failure (do_loopback_recording w f id).
Proof.
  intros w f id. unfold do_loopback_recording.
  apply exits_bind; [apply exits_start_capture_stream | ].
  intros [[f' fmt] d].
  apply exits_bind; [apply exits_capture_loop | intros _].
  rewrite call_bind. apply exits_unchecked_event; reflexivity.
Qed.

Lemma all_events_bind {A B} (P : event -> bool) (m : M A) (k : A -> M B) :
  all_events P m -> (forall a, all_events P (k a)) ->
  all_events P (bind m k).
Proof.
  unfold all_events. destruct m as [t [a | c | ]]; simpl; auto.
  intros Ht Hk. specialize (Hk a). destruct (k a) as [u o]. simpl in *.
  rewrite forallb_app, Ht, Hk. reflexivity.
Qed.

Lemma all_events_exit_on_failed (P : event -> bool) (hr : HRESULT)
    (message func : string) :
  (forall s, P (EError s) = true) ->
  all_events P (exit_on_failed hr message func).
Proof.
  intros H. unfold all_events, exit_on_failed.
  destruct (FAILED hr); simpl; [rewrite H | ]; reflexivity.
Qed.

Ltac events_step :=
  first [ reflexivity
        | apply all_events_exit_on_failed; intros; reflexivity
        | apply all_events_bind; [ | intros ? ]
        | match goal with
          | |- all_events _ (if ?b then _ else _) => destruct b
          end ].

Lemma not_stop_start_capture_stream (w : capture_world) (f : AudioFormat)
    (id : string) :
  all_events not_stop (start_capture_stream w f id).
Proof. unfold start_capture_stream. repeat events_step. Qed.

Lemma not_stop_capture_loop (d : Z) (fmt : WAVEFORMATEX) (ticks : list tick) :
  all_events not_stop (capture_loop d fmt ticks).
Proof.
  induction ticks as [ | t later IH]; [reflexivity | ].
  cbn [capture_loop]. apply all_events_bind.
  - unfold loop_body. repeat events_step.
  - intros [ | ]; [ | reflexivity].
    destruct (negb (stopped_at_cond t)); [exact IH | reflexivity].
Qed.

Lemma not_stop_filter (t : trace) :
  forallb not_stop t = true -> filter is_stop t = [].
Proof.
  induction t as [ | e t IH]; simpl; [reflexivity | ].
  unfold not_stop at 1. rewrite andb_true_iff, negb_true_iff.
  intros [-> Ht]. exact (IH Ht).
Qed.

(** X12: [Stop] is called exactly once in a run that returns, as its
    last call and with the world's answer ignored, and not at all in a
    run that exits: after a failure the started stream is left running
    when the process ends. *)
Theorem stop_called_iff_returns :
  forall (w : capture_world) (f : AudioFormat) (id : string),
    filter is_stop (fst (do_loopback_recording w f id))
    = (if returns_to_caller (snd (do_loopback_recording w f id))
       then [ECall Stop (cw_hr_stop w)] else [])
    /\ (returns_to_caller (snd (do_loopback_recording w f id)) = true ->
        exists t,
          fst (do_loopback_recording w f id)
          = t ++ [ECall Stop (cw_hr_stop w)]).
Proof.
  intros w f id. unfold do_loopback_recording.
  pose proof (not_stop_start_capture_stream w f id) as Hs.
  unfold all_events in Hs.
  destruct (start_capture_stream w f id) as [t [[[f' fmt] d] | c | ]];
    cbn [fst] in Hs; apply not_stop_filter in Hs; cbn [bind].
  - pose proof (not_stop_capture_loop d fmt (cw_ticks w)) as Hl.
    unfold all_events in Hl.
    destruct (capture_loop d fmt (cw_ticks w)) as [u [[] | c | ]];
      cbn [fst] in Hl; apply not_stop_filter in Hl;
      cbn [bind call ret fst snd app returns_to_caller].
    + rewrite !filter_app, Hs, Hl. split; [reflexivity | ].
      intros _. exists (t ++ u). rewrite <- app_assoc. reflexivity.
    + rewrite !filter_app, Hs, Hl. split; [reflexivity | discriminate].
    + rewrite !filter_app, Hs, Hl. split; [reflexivity | discriminate].
  - cbn [fst snd returns_to_caller]. split; [exact Hs | discriminate].
  - cbn [fst snd returns_to_caller]. split; [exact Hs | discriminate].
Qed.

(** X13: the HRESULT of [Stop] is never examined.  Whatever [Stop]
    answers, a failure included, the routine ends the same way, returns
    the same AudioFormat and writes the same warning and error lines. *)
Theorem stop_result_is_ignored :
  forall (w : capture_world) (hr : HRESULT) (f : AudioFormat) (id : string),
    snd (do_loopback_recording (with_hr_stop w hr) f id)
    = snd (do_loopback_recording w f id)
    /\ filter is_log (fst (do_loopback_recording (with_hr_stop w hr) f id))
       = filter is_log (fst (do_loopback_recording w f id))
    /\ List.length (fst (do_loopback_recording (with_hr_stop w hr) f id))
       = List.length (fst (do_loopback_recording w f id)).
Proof.
  intros w hr f id. unfold do_loopback_recording.
  change (start_capture_stream (with_hr_stop w hr) f id)
    with (start_capture_stream w f id).
  change (cw_ticks (with_hr_stop w hr)) with (cw_ticks w).
  change (cw_hr_stop (with_hr_stop w hr)) with hr.
  destruct (start_capture_stream w f id) as [t [[[f' fmt] d] | c | ]];
    cbn [bind]; [ | repeat split | repeat split].
  destruct (capture_loop d fmt (cw_ticks w)) as [u [[] | c | ]];
    cbn [bind call ret fst snd app]; [ | repeat split | repeat split].
  rewrite !filter_app, !length_app. repeat split.
Qed.

Lemma loop_body_fails_snd (d : Z) (fmt : WAVEFORMATEX) (t : tick) :
  wait_ec t = 0 -> tick_completes t = false ->
  snd (loop_body d fmt t) = Exited (-1).
Proof.
  intros Hw Hc. rewrite loop_body_eq. unfold tick_completes in Hc.
  rewrite Hw in *. cbn [Z.eqb negb andb] in *.
  rewrite !FAILED_SUCCEEDED.
  destruct (SUCCEEDED (hr_packet t)); [ | reflexivity].
  destruct (next_packet_size t =? 0); [discriminate | ].
  destruct (SUCCEEDED (hr_buffer t)); [ | reflexivity].
  destruct (SUCCEEDED (hr_release t)); [discriminate | reflexivity].
Qed.

(** X14: the loop has no other way out.  [capture_loop] returns
    exactly when, after ticks that all ran to the condition with the flag
    read clear, a tick either has its timer wait fail or runs to the
    condition and reads the flag set.  On ticks that all leave it running
    it is still waiting when they are used up. *)
Theorem capture_loop_returns_iff :
  forall (d : Z) (fmt : WAVEFORMATEX) (ticks : list tick),
    (snd (capture_loop d fmt ticks) = Returned tt <->
     exists pre t later,
       ticks = pre ++ t :: later /\
       forallb keeps_running pre = true /\
       (wait_ec t <> 0 \/
        tick_completes t = true /\ stopped_at_cond t = true))
    /\ (forallb keeps_running ticks = true ->
        capture_loop d fmt ticks = (ticks_trace d fmt ticks, Waiting)).
Proof.
  intros d fmt ticks. split; [split | ].
  - induction ticks as [ | t later IH]; [discriminate | ].
    intros H. destruct (Z.eq_dec (wait_ec t) 0) as [Hw | Hw].
    + destruct (tick_completes t) eqn:Hc.
      * destruct (stopped_at_cond t) eqn:Hs.
        -- exists [], t, later. auto.
        -- rewrite (capture_loop_continue _ _ _ _ Hc Hs) in H.
           cbn [prepend snd] in H.
           destruct (IH H) as (pre & u & rest & -> & Hp & Hu).
           exists (t :: pre), u, rest. split; [reflexivity | ].
           split; [ | exact Hu].
           cbn [forallb]. unfold keeps_running at 1.
           rewrite Hc, Hs, Hp. reflexivity.
      * cbn [capture_loop] in H.
        rewrite bind_snd, (loop_body_fails_snd _ _ _ Hw Hc) in H.
        discriminate.
    + exists [], t, later. auto.
  - intros (pre & t & later & -> & Hp & [Hw | [Hc Hs]]);
      rewrite (capture_loop_app _ _ _ _ Hp).
    + rewrite (capture_loop_break _ _ _ _ Hw). reflexivity.
    + rewrite (capture_loop_stop _ _ _ _ Hc Hs). reflexivity.
  - intros Hp. rewrite <- (app_nil_r ticks) at 1.
    rewrite (capture_loop_app _ _ _ _ Hp). unfold prepend.
    cbn [capture_loop fst snd]. rewrite app_nil_r. reflexivity.
Qed.

Lemma checked_last_snd (c : os_call) (h : HRESULT) (message func : string) :
  snd (hr <- call c h ;; exit_on_failed hr message func)
  = if SUCCEEDED h then Returned tt else Exited (-1).
Proof.
  unfold call. rewrite bind_pair. unfold exit_on_failed.
  rewrite FAILED_SUCCEEDED. destruct (SUCCEEDED h); reflexivity.
Qed.

(** How the start-up ends, in closed form. *)
Lemma start_capture_stream_snd (w : capture_world) (f : AudioFormat)
    (id : string) :
  exists f',
    set_format f (capture_format w) = ([], Returned f') /\
    snd (start_capture_stream w f id)
    = if startup_ok w
      then Returned (f', capture_format w, tick_duration w)
      else Exited (-1).
Proof.
  destruct (set_format_total f (handle_extensible (cw_mix_format w)))
    as [f' Ef].
  exists f'. split; [exact Ef | ].
  unfold start_capture_stream, startup_ok, pre_init_ok, init_ok, post_init_ok,
    capture_format, tick_duration.
  rewrite !checked_snd.
  destruct (SUCCEEDED (cw_hr_create w)); [ | reflexivity].
  destruct (SUCCEEDED (cw_hr_get_device w)); [ | reflexivity].
  destruct (SUCCEEDED (cw_hr_open_props w)); [ | reflexivity].
  destruct (SUCCEEDED (cw_hr_get_value w)); [ | reflexivity].
  destruct (SUCCEEDED (cw_hr_activate w)); [ | reflexivity].
  destruct (SUCCEEDED (cw_hr_mix_format w)); [ | reflexivity].
  cbv zeta. rewrite Ef, bind_ret_l, checked_snd.
  destruct (SUCCEEDED (cw_hr_device_period w)); [ | reflexivity].
  rewrite call_bind. cbn [prepend snd]. rewrite bind_snd, FAILED_SUCCEEDED.
  cbn [andb].
  destruct (SUCCEEDED (cw_hr_initialize w AUDCLNT_STREAMFLAGS_LOOPBACK));
    cbn [negb orb].
  - cbn [ret snd]. rewrite !checked_snd.
    destruct (SUCCEEDED (cw_hr_buffer_size w)); [ | reflexivity].
    destruct (SUCCEEDED (cw_hr_service w)); [ | reflexivity].
    destruct (SUCCEEDED (cw_hr_start w)); reflexivity.
  - rewrite bind_snd. cbn [emit snd]. rewrite checked_last_snd.
    destruct (SUCCEEDED (cw_hr_initialize w AUDCLNT_STREAMFLAGS_EVENTCALLBACK));
      [ | reflexivity].
    rewrite !checked_snd.
    destruct (SUCCEEDED (cw_hr_buffer_size w)); [ | reflexivity].
    destruct (SUCCEEDED (cw_hr_service w)); [ | reflexivity].
    destruct (SUCCEEDED (cw_hr_start w)); reflexivity.
Qed.

Lemma start_capture_stream_locals (w : capture_world) (f f' : AudioFormat)
    (id : string) (fmt : WAVEFORMATEX) (d : Z) :
  snd (start_capture_stream w f id) = Returned (f', fmt, d) ->
  set_format f (capture_format w) = ([], Returned f')
  /\ fmt = capture_format w /\ d = tick_duration w.
Proof.
  intros H. destruct (start_capture_stream_snd w f id) as (f1 & Ef & Hs).
  rewrite Hs in H. destruct (startup_ok w); [ | discriminate].
  injection H as <- <- <-. auto.
Qed.

Lemma all_events_bind_val {A B} (P : event -> bool) (m : M A)
    (k : A -> M B) :
  all_events P m ->
  (forall a, snd m = Returned a -> all_events P (k a)) ->
  all_events P (bind m k).
Proof.
  unfold all_events. destruct m as [t [a | c | ]]; simpl; auto.
  intros Ht Hk. specialize (Hk a eq_refl). destruct (k a) as [u o].
  simpl in *. rewrite forallb_app, Ht, Hk. reflexivity.
Qed.

Lemma waits_with_capture_loop (d : Z) (fmt : WAVEFORMATEX)
    (ticks : list tick) :
  all_events (waits_with d) (capture_loop d fmt ticks).
Proof.
  induction ticks as [ | t later IH]; [reflexivity | ].
  cbn [capture_loop]. apply all_events_bind.
  - unfold loop_body. apply all_events_bind.
    + unfold all_events. cbn. rewrite Z.eqb_refl. reflexivity.
    + intros _. repeat events_step.
  - intros [ | ]; [ | reflexivity].
    destruct (negb (stopped_at_cond t)); [exact IH | reflexivity].
Qed.

(** X15: every timer wait of a run is scheduled with the same step,
    the minimum device period divided by 10000 and truncated to whole
    milliseconds.  For a device period below one millisecond that step is
    zero: the timer then paces nothing. *)
Theorem timer_waits_use_device_period :
  forall (w : capture_world) (f : AudioFormat) (id : string),
    forallb (waits_with (Z.quot (cw_min_period w) REFTIMES_PER_MILLISEC))
            (fst (do_loopback_recording w f id))
    = true
    /\ (0 <= cw_min_period w < 10000 ->
        Z.quot (cw_min_period w) REFTIMES_PER_MILLISEC = 0).
Proof.
  intros w f id. split.
  - change (all_events
              (waits_with (Z.quot (cw_min_period w) REFTIMES_PER_MILLISEC))
              (do_loopback_recording w f id)).
    unfold do_loopback_recording. apply all_events_bind_val.
    + unfold start_capture_stream. repeat events_step.
    + intros [[f' fmt] d] Hs.
      apply start_capture_stream_locals in Hs. destruct Hs as (_ & _ & ->).
      apply all_events_bind; [apply waits_with_capture_loop | intros _].
      reflexivity.
  - intros H. unfold REFTIMES_PER_MILLISEC. apply Z.quot_small. exact H.
Qed.

Lemma delivery_state_app (align : Z) (pending : option Z) (t u : trace) :
  delivery_state align pending (t ++ u)
  = match delivery_state align pending t with
    | Some pending' => delivery_state align pending' u
    | None => None
    end.
Proof.
  revert pending. induction t as [ | e t IH]; intros pending; simpl;
    [reflexivity | ].
  destruct (delivery_step align pending e); [apply IH | reflexivity].
Qed.

Lemma delivers_bind_val (align : Z) {A B} (m : M A) (k : A -> M B) :
  releases_what_it_delivers align m ->
  (forall a, snd m = Returned a -> releases_what_it_delivers align (k a)) ->
  releases_what_it_delivers align (bind m k).
Proof.
  unfold releases_what_it_delivers.
  destruct m as [t [a | c | ]]; simpl; auto.
  intros Ht Hk. specialize (Hk a eq_refl). destruct (k a) as [u o].
  simpl in *. rewrite delivery_state_app, Ht. exact Hk.
Qed.

Lemma delivers_exit_on_failed (align : Z) (hr : HRESULT)
    (message func : string) :
  releases_what_it_delivers align (exit_on_failed hr message func).
Proof. unfold exit_on_failed. destruct (FAILED hr); reflexivity. Qed.

Ltac delivers_step :=
  first [ reflexivity
        | apply delivers_exit_on_failed
        | apply delivers_bind_val; [ | intros ? _ ]
        | match goal with
          | |- releases_what_it_delivers _ (if ?b then _ else _) => destruct b
          end ].

Lemma delivers_loop_body (d : Z) (fmt : WAVEFORMATEX) (t : tick) :
  releases_what_it_delivers (nBlockAlign fmt) (loop_body d fmt t).
Proof.
  unfold releases_what_it_delivers. rewrite loop_body_eq.
  destruct (negb (wait_ec t =? 0)); [reflexivity | ].
  destruct (FAILED (hr_packet t)); [reflexivity | ].
  destruct (next_packet_size t =? 0); [reflexivity | ].
  destruct (FAILED (hr_buffer t)); [reflexivity | ].
  unfold delivered_count.
  destruct (FAILED (hr_release t)); cbn; rewrite !Z.eqb_refl; reflexivity.
Qed.

Lemma delivers_capture_loop (d : Z) (fmt : WAVEFORMATEX) (ticks : list tick) :
  releases_what_it_delivers (nBlockAlign fmt) (capture_loop d fmt ticks).
Proof.
  induction ticks as [ | t later IH]; [reflexivity | ].
  cbn [capture_loop].
  apply delivers_bind_val; [apply delivers_loop_body | ].
  intros [ | ] _; [ | reflexivity].
  destruct (negb (stopped_at_cond t)); [exact IH | reflexivity].
Qed.

(** X16: in every run, each sink call carries the block alignment of
    the capture format and is followed at once by [ReleaseBuffer] for the
    frame count whose byte length, frames x block alignment in 32-bit
    arithmetic, was handed to the sink; [ReleaseBuffer] is never called
    without that sink call before it.  What is given back to the driver
    is what was delivered. *)
Theorem sink_calls_match_releases :
  forall (w : capture_world) (f : AudioFormat) (id : string),
    deliveries_match_releases
      (nBlockAlign (handle_extensible (cw_mix_format w)))
      (fst (do_loopback_recording w f id))
    = true.
Proof.
  intros w f id.
  assert (H : releases_what_it_delivers
                (nBlockAlign (handle_extensible (cw_mix_format w)))
                (do_loopback_recording w f id)).
  { unfold do_loopback_recording. apply delivers_bind_val.
    - unfold start_capture_stream. repeat delivers_step.
    - intros [[f' fmt] d] Hs.
      apply start_capture_stream_locals in Hs. destruct Hs as (_ & -> & _).
      apply delivers_bind_val; [apply delivers_capture_loop | intros _ _].
      reflexivity. }
  unfold releases_what_it_delivers in H. unfold deliveries_match_releases.
  rewrite H. reflexivity.
Qed.

(** X17: the AudioFormat a returning run leaves in [_format] is what
    [set_format] resolves from the mix format as the device reported it:
    its channels, sample rate and bits per sample are the device's. *)
Theorem do_loopback_recording_returns_resolved_format :
  forall (w : capture_world) (f resolved : AudioFormat) (id : string),
    snd (do_loopback_recording w f id) = Returned resolved ->
    set_format f (cw_mix_format w) = ([], Returned resolved)
    /\ channels resolved = nChannels (cw_mix_format w)
    /\ sample_rate resolved = nSamplesPerSec (cw_mix_format w)
    /\ bits_per_sample resolved = wBitsPerSample (cw_mix_format w).
Proof.
  intros w f r id H. unfold do_loopback_recording in H.
  rewrite bind_snd in H.
  destruct (snd (start_capture_stream w f id)) as [[[f' fmt] d] | c | ] eqn:Hs;
    try discriminate.
  apply start_capture_stream_locals in Hs. destruct Hs as (Ef & _ & _).
  rewrite bind_snd in H.
  destruct (snd (capture_loop d fmt (cw_ticks w))) as [[] | c | ];
    try discriminate.
  cbn in H. injection H as <-.
  unfold capture_format in Ef. rewrite set_format_handle_extensible_eq in Ef.
  split; [exact Ef | ].
  rewrite set_format_value in Ef. injection Ef as <-. auto.
Qed.

(* ------------------------------------------------------------------ *)
(** ** The default index of an enumeration *)

Lemma default_queries_app (t u : trace) :
  default_queries (t ++ u) = default_queries t ++ default_queries u.
Proof.
  induction t as [ | e t IH]; simpl; [reflexivity | ].
  destruct e as [c hr | | | | ]; try exact IH.
  destruct c; simpl; rewrite ?IH; reflexivity.
Qed.

Lemma not_default_query_none (t : trace) :
  forallb not_default_query t = true -> default_queries t = [].
Proof.
  induction t as [ | e t IH]; simpl; [reflexivity | ].
  rewrite andb_true_iff. intros [He Ht].
  destruct e as [c hr | | | | ]; try exact (IH Ht).
  destruct c; try exact (IH Ht). discriminate.
Qed.

(** A returning bind is the two runs one after the other. *)
Lemma bind_Returned_trace {A B} (m : M A) (k : A -> M B) (b : B) :
  snd (bind m k) = Returned b ->
  exists a,
    snd m = Returned a /\ snd (k a) = Returned b /\
    fst (bind m k) = fst m ++ fst (k a).
Proof.
  destruct m as [t [a | c | ]]; simpl; try discriminate.
  intros H. exists a. destruct (k a) as [u o]. simpl in *. auto.
Qed.

Lemma checked_Returned_trace {B} (c : os_call) (h : HRESULT)
    (message func : string) (k : M B) (b : B) :
  snd (hr <- call c h ;; exit_on_failed hr message func ;;; k) = Returned b ->
  snd k = Returned b /\
  fst (hr <- call c h ;; exit_on_failed hr message func ;;; k)
  = ECall c h :: fst k.
Proof.
  rewrite checked_call_eq. destruct (FAILED h); [discriminate | ].
  cbn [fst snd]. auto.
Qed.

Lemma get_default_endpoint_queries (w : default_world) (id : string) :
  snd (get_default_endpoint w) = Returned id ->
  default_queries (fst (get_default_endpoint w))
  = [(eRender, dw_hr_default w)].
Proof.
  rewrite get_default_endpoint_eq.
  destruct (FAILED (dw_hr_create w)); [discriminate | ].
  destruct (dw_hr_default w =? HRESULT_FROM_WIN32 ERROR_NOT_FOUND);
    [reflexivity | ].
  destruct (FAILED (dw_hr_default w)); [discriminate | ].
  destruct (FAILED (dw_hr_get_id w)); [discriminate | reflexivity].
Qed.

Lemma endpoint_loop_no_default_query (data_flow : EDataFlow)
    (item : nat -> device_world) (default_id : string) (n : nat) :
  forall (i : nat) (st : endpoint_list_t * Z),
    all_events not_default_query
               (endpoint_loop data_flow item default_id n i st).
Proof.
  induction n as [ | n IH]; intros i st; [reflexivity | ].
  cbn [endpoint_loop]. apply all_events_bind; [ | intros st'; apply IH].
  destruct st as [l acc]. unfold endpoint_body. repeat events_step.
Qed.

Lemma flow_body_queries (w : enum_world) (data_flow : EDataFlow)
    (st st' : endpoint_list_t * Z) :
  snd (flow_body w data_flow st) = Returned st' ->
  default_queries (fst (flow_body w data_flow st))
  = [(eRender, dw_hr_default (pw_default (ew_pass w data_flow)))].
Proof.
  unfold flow_body. intros H.
  apply checked_Returned_trace in H. destruct H as [H ->].
  apply checked_Returned_trace in H. destruct H as [H ->].
  apply checked_Returned_trace in H. destruct H as [H ->].
  apply bind_Returned_trace in H. destruct H as (d & Hd & _ & ->).
  cbn [default_queries]. rewrite default_queries_app.
  rewrite (get_default_endpoint_queries _ _ Hd).
  rewrite (not_default_query_none _
             (endpoint_loop_no_default_query data_flow _ d _ 0%nat _)).
  reflexivity.
Qed.

Lemma get_endpoint_list_queries (w : enum_world) (l l' : endpoint_list_t)
    (idx : Z) :
  snd (get_endpoint_list w l) = Returned (idx, l') ->
  default_queries (fst (get_endpoint_list w l))
  = [(eRender, dw_hr_default (ew_default w));
     (eRender, dw_hr_default (pw_default (ew_pass w eRender)));
     (eRender, dw_hr_default (pw_default (ew_pass w eCapture)))].
Proof.
  unfold get_endpoint_list. intros H.
  apply bind_Returned_trace in H. destruct H as (d0 & Hd0 & H & ->).
  apply bind_Returned_trace in H. destruct H as (st & Hloop & _ & ->).
  cbn [flow_loop] in *.
  apply bind_Returned_trace in Hloop. destruct Hloop as (st1 & Hr & Hloop & ->).
  apply bind_Returned_trace in Hloop. destruct Hloop as (st2 & Hc & _ & ->).
  rewrite !default_queries_app.
  rewrite (get_default_endpoint_queries _ _ Hd0),
    (flow_body_queries _ _ _ _ Hr), (flow_body_queries _ _ _ _ Hc).
  reflexivity.
Qed.

(** C8: whenever [get_endpoint_list] returns, it has asked the OS for
    the default endpoint three times, each time for the playback
    direction ([eRender]), and the index it returns is the one the
    recording pass computed: the scan starts again from -1, runs over
    the recording collection only, numbers its devices from 0 and
    compares their ids with the playback default id the OS answered in
    that pass (the empty string for ERROR_NOT_FOUND, the converted id
    otherwise).  So when no recording device has that id the result is
    -1, whatever the playback collection holds and whichever playback
    device is the default, and two enumerations that agree on the
    recording pass return the same index. *)
Theorem get_endpoint_list_index_is_recording_local :
  forall (w : enum_world) (endpoint_list endpoints : endpoint_list_t)
         (default_index : Z),
    snd (get_endpoint_list w endpoint_list)
    = Returned (default_index, endpoints) ->
    default_queries (fst (get_endpoint_list w endpoint_list))
    = [(eRender, dw_hr_default (ew_default w));
       (eRender, dw_hr_default (pw_default (ew_pass w eRender)));
       (eRender, dw_hr_default (pw_default (ew_pass w eCapture)))]
    /\ snd (get_default_endpoint (pw_default (ew_pass w eCapture)))
       = Returned (default_id_of (pw_default (ew_pass w eCapture)))
    /\ default_index
       = last_match (default_id_of (pw_default (ew_pass w eCapture)))
                    (recording_ids w) 0 (-1)
    /\ ((forall id,
            In id (recording_ids w) ->
            id <> default_id_of (pw_default (ew_pass w eCapture))) ->
        default_index = -1)
    /\ (forall (w' : enum_world) (list' endpoints' : endpoint_list_t)
               (default_index' : Z),
           ew_pass w' eCapture = ew_pass w eCapture ->
           snd (get_endpoint_list w' list')
           = Returned (default_index', endpoints') ->
           default_index' = default_index).
Proof.
  intros w l l' idx H.
  split; [exact (get_endpoint_list_queries _ _ _ _ H) | ].
  rewrite get_endpoint_list_snd in H.
  destruct (enumeration_ok w) eqn:Hok; [ | discriminate].
  injection H as <- _.
  split; [ | split; [reflexivity | split]].
  - rewrite get_default_endpoint_snd.
    unfold enumeration_ok, pass_ok in Hok. rewrite !andb_true_iff in Hok.
    destruct Hok as [_ [[_ Hd] _]]. rewrite Hd. reflexivity.
  - intros Hn. apply last_match_none. exact Hn.
  - intros w' k k' idx' Hw H'. rewrite get_endpoint_list_snd in H'.
    destruct (enumeration_ok w'); [ | discriminate].
    injection H' as <- _. unfold recording_ids. rewrite Hw. reflexivity.
Qed.

End Routines.

(* ------------------------------------------------------------------ *)
(** ** The routines run on the sample worlds *)

(** The fallback world: loopback rejected, EVENTCALLBACK accepted, the
    same format in both calls, and the stream is started. *)
Lemma initialize_fallback_once_witness :
  pre_init_ok fallback_capture_world = true
  /\ initialize_calls
       (fst (do_loopback_recording narrow wide win_err_text
                                   fallback_capture_world fresh_AudioFormat
                                   "spk1"))
     = [(AUDCLNT_STREAMFLAGS_LOOPBACK, pcm16_stereo,
         AUDCLNT_E_UNSUPPORTED_FORMAT);
        (AUDCLNT_STREAMFLAGS_EVENTCALLBACK, pcm16_stereo, S_OK)]
  /\ reached_running
       (fst (do_loopback_recording narrow wide win_err_text
                                   fallback_capture_world fresh_AudioFormat
                                   "spk1"))
     = true.
Proof.
  pose proof (initialize_fallback_once narrow wide win_err_text
                fallback_capture_world fresh_AudioFormat "spk1" eq_refl)
    as (Hcalls & Hrun & _).
  split; [reflexivity | split; [exact Hcalls | ]].
  apply Hrun; reflexivity.
Defined.

(** C1 fails as stated: when both initializations are rejected the
    routine does not come back to its caller with a state and a reason,
    the process has exited. *)
Lemma both_initializations_fail_exits_process :
  FAILED (cw_hr_initialize failing_capture_world AUDCLNT_STREAMFLAGS_LOOPBACK)
  = true
  /\ FAILED (cw_hr_initialize failing_capture_world
                              AUDCLNT_STREAMFLAGS_EVENTCALLBACK)
     = true
  /\ snd (do_loopback_recording narrow wide win_err_text
                                failing_capture_world fresh_AudioFormat "spk1")
     = Exited (-1)
  /\ returns_to_caller
       (snd (do_loopback_recording narrow wide win_err_text
                                   failing_capture_world fresh_AudioFormat
                                   "spk1"))
     = false.
Proof. repeat split; reflexivity. Qed.

(** A tick whose condition reads the flag set ends the loop. *)
Lemma stop_flag_read_at_condition_witness :
  tick_completes (stopping_tick 480) = true
  /\ stopped_at_cond (stopping_tick 480) = true
  /\ capture_loop narrow win_err_text 3 pcm16_stereo
                  [stopping_tick 480; packet_tick true 960]
     = (fst (loop_body narrow win_err_text 3 pcm16_stereo (stopping_tick 480)),
        Returned tt).
Proof.
  split; [reflexivity | split; [reflexivity | ]].
  exact (proj1 (proj2 (stop_flag_read_at_condition narrow win_err_text 3
                         pcm16_stereo (stopping_tick 480)
                         [packet_tick true 960]))
               eq_refl eq_refl).
Defined.

(** C2 fails as stated: with the flag set when the first tick begins,
    that tick still polls, acquires, calls the sink and releases. *)
Lemma stop_set_at_top_still_drains :
  stopped_at_top (packet_tick true 480) = true
  /\ buffer_ops
       (fst (capture_loop narrow win_err_text 3 pcm16_stereo
                          [packet_tick true 480; packet_tick true 480]))
     = [ECall GetNextPacketSize S_OK; ECall GetBuffer S_OK;
        EBroadcast 1920 4; ECall (ReleaseBuffer 480) S_OK].
Proof. split; reflexivity. Qed.



(** [EnumAudioEndpoints] fails: the process exits. *)
Lemma get_endpoint_list_failure_exits_witness :
  existsb failed_query
          (fst (get_endpoint_list narrow narrow win_err_text
                                  enumeration_fails []))
  = true
  /\ snd (get_endpoint_list narrow narrow win_err_text enumeration_fails [])
     = Exited (-1).
Proof.
  split; [reflexivity | ].
  exact (proj1 (proj1 (get_endpoint_list_failure_exits narrow narrow
                         win_err_text enumeration_fails [])
                      eq_refl)).
Defined.

(** C4 fails as stated: after a failed enumeration query nothing is
    handed to the caller and the process does not go on. *)
Lemma enumeration_failure_exits_process :
  get_endpoint_list narrow narrow win_err_text enumeration_fails []
  = ([ECall CoCreateInstance S_OK; ECall (GetDefaultAudioEndpoint eRender) S_OK;
      ECall GetId S_OK; ECall CoCreateInstance S_OK;
      ECall (EnumAudioEndpoints eRender) E_FAIL;
      EError "exit_on_failed   Unspecified error"],
     Exited (-1))
  /\ returns_to_caller
       (snd (get_endpoint_list narrow narrow win_err_text
                               enumeration_fails []))
     = false.
Proof. split; reflexivity. Qed.

(** An extensible float format resolves to IEEE_FLOAT. *)
Lemma set_format_extensible_witness :
  wFormatTag (extensible_stereo KSDATAFORMAT_SUBTYPE_IEEE_FLOAT)
  = WAVE_FORMAT_EXTENSIBLE
  /\ exists tag,
       set_format fresh_AudioFormat
                  (extensible_stereo KSDATAFORMAT_SUBTYPE_IEEE_FLOAT)
       = ([], Returned (mkAudioFormat tag 2 48000 32))
       /\ tag = WAVE_FORMAT_IEEE_FLOAT.
Proof.
  split; [reflexivity | ].
  destruct (set_format_extensible fresh_AudioFormat
              (extensible_stereo KSDATAFORMAT_SUBTYPE_IEEE_FLOAT) eq_refl)
    as (tag & Hs & Hf & _).
  exists tag. split; [exact Hs | exact (Hf eq_refl)].
Defined.

(** C5 fails as stated: on a message that carries the PCM tag, an
    extensible format with an ADPCM sub-format leaves the tag PCM, not
    Unknown. *)
Lemma unrecognized_subformat_keeps_old_tag :
  wFormatTag adpcm_extensible = WAVE_FORMAT_EXTENSIBLE
  /\ IsEqualGUID (SubFormat adpcm_extensible) KSDATAFORMAT_SUBTYPE_PCM = false
  /\ IsEqualGUID (SubFormat adpcm_extensible) KSDATAFORMAT_SUBTYPE_IEEE_FLOAT
     = false
  /\ set_format pcm_AudioFormat adpcm_extensible
     = ([], Returned (mkAudioFormat WAVE_FORMAT_PCM 2 48000 32))
  /\ WAVE_FORMAT_PCM <> WAVE_FORMAT_UNKNOWN.
Proof. repeat split; try reflexivity. discriminate. Qed.

(** The flag becomes set during the second tick: that tick is the last. *)
Lemma stop_ends_loop_and_buffers_are_released_witness :
  startup_ok stop_during_second_tick = true
  /\ cw_ticks stop_during_second_tick
     = [packet_tick false 0] ++ stopping_tick 480 :: [packet_tick true 960]
  /\ fst (do_loopback_recording narrow wide win_err_text
                                stop_during_second_tick fresh_AudioFormat
                                "spk1")
     = fst (do_loopback_recording narrow wide win_err_text
              (with_ticks stop_during_second_tick [packet_tick false 0])
              fresh_AudioFormat "spk1")
         ++ fst (loop_body narrow win_err_text
                           (tick_duration stop_during_second_tick)
                           (capture_format stop_during_second_tick)
                           (stopping_tick 480))
         ++ [ECall Stop (cw_hr_stop stop_during_second_tick)].
Proof.
  split; [reflexivity | split; [reflexivity | ]].
  exact (proj1 (proj2
           (proj2 (stop_ends_loop_and_buffers_are_released narrow wide
                     win_err_text stop_during_second_tick fresh_AudioFormat
                     "spk1")
                  [packet_tick false 0] (stopping_tick 480)
                  [packet_tick true 960]
                  eq_refl eq_refl eq_refl eq_refl eq_refl))).
Defined.

(** No default render device: the empty string. *)
Lemma get_default_endpoint_absent_witness :
  SUCCEEDED (dw_hr_create default_absent) = true
  /\ dw_hr_default default_absent = HRESULT_FROM_WIN32 ERROR_NOT_FOUND
  /\ get_default_endpoint narrow narrow win_err_text default_absent
     = ([ECall CoCreateInstance S_OK;
         ECall (GetDefaultAudioEndpoint eRender)
               (HRESULT_FROM_WIN32 ERROR_NOT_FOUND)],
        Returned "").
Proof.
  split; [reflexivity | split; [reflexivity | ]].
  exact (proj1 (get_default_endpoint_absent narrow narrow win_err_text
                  default_absent eq_refl eq_refl)).
Defined.

(** The timer fails on the second tick: one wait, then [Stop]. *)
Lemma timer_failure_ends_as_stop_witness :
  startup_ok timer_fails_world = true
  /\ cw_ticks timer_fails_world
     = [packet_tick false 480] ++ timer_failure_tick 995
                               :: [packet_tick false 480]
  /\ wait_ec (timer_failure_tick 995) <> 0
  /\ fst (do_loopback_recording narrow wide win_err_text timer_fails_world
                                fresh_AudioFormat "spk1")
     = fst (do_loopback_recording narrow wide win_err_text
              (with_ticks timer_fails_world [packet_tick false 480])
              fresh_AudioFormat "spk1")
         ++ [ETimerWait (tick_duration timer_fails_world) 995;
             ECall Stop (cw_hr_stop timer_fails_world)].
Proof.
  assert (H : wait_ec (timer_failure_tick 995) <> 0) by discriminate.
  split; [reflexivity | split; [reflexivity | split; [exact H | ]]].
  exact (proj1 (timer_failure_ends_as_stop narrow wide win_err_text
                  timer_fails_world fresh_AudioFormat "spk1"
                  [packet_tick false 480] (timer_failure_tick 995)
                  [packet_tick false 480] eq_refl eq_refl eq_refl H)).
Defined.

(** The flag is set before the capture starts: one full tick runs. *)
Lemma first_tick_runs_before_flag_is_read_witness :
  startup_ok stopped_early_world = true
  /\ stopped_at_top (packet_tick true 480) = true
  /\ fst (do_loopback_recording narrow wide win_err_text stopped_early_world
                                fresh_AudioFormat "spk1")
     = fst (do_loopback_recording narrow wide win_err_text
              (with_ticks stopped_early_world []) fresh_AudioFormat "spk1")
         ++ fst (loop_body narrow win_err_text
                           (tick_duration stopped_early_world)
                           (capture_format stopped_early_world)
                           (packet_tick true 480))
         ++ [ECall Stop (cw_hr_stop stopped_early_world)].
Proof.
  split; [reflexivity | split; [reflexivity | ]].
  exact (proj2 (proj2 (proj2
           (first_tick_runs_before_flag_is_read narrow wide win_err_text
              stopped_early_world fresh_AudioFormat "spk1"
              (packet_tick true 480) [packet_tick true 480]
              eq_refl eq_refl)))
           eq_refl eq_refl eq_refl).
Defined.

(* ------------------------------------------------------------------ *)
(** ** Further runs on the sample worlds *)

(** A fresh message resolved from an ADPCM extensible format keeps a
    canonical tag. *)
Lemma set_format_keeps_tag_canonical_witness :
  canonical_tag (format_tag fresh_AudioFormat) = true
  /\ exists resolved,
       set_format fresh_AudioFormat adpcm_extensible = ([], Returned resolved)
       /\ canonical_tag (format_tag resolved) = true.
Proof.
  split; [reflexivity | ].
  destruct (set_format_keeps_tag_canonical fresh_AudioFormat adpcm_extensible)
    as (r & Hs & _ & Hc & _).
  exists r. split; [exact Hs | exact (Hc eq_refl)].
Defined.

Lemma set_format_idempotent_witness :
  snd (set_format pcm_AudioFormat
                  (extensible_stereo KSDATAFORMAT_SUBTYPE_IEEE_FLOAT))
  = Returned (mkAudioFormat WAVE_FORMAT_IEEE_FLOAT 2 48000 32)
  /\ set_format (mkAudioFormat WAVE_FORMAT_IEEE_FLOAT 2 48000 32)
                (extensible_stereo KSDATAFORMAT_SUBTYPE_IEEE_FLOAT)
     = ([], Returned (mkAudioFormat WAVE_FORMAT_IEEE_FLOAT 2 48000 32)).
Proof.
  split; [reflexivity | ].
  exact (set_format_idempotent pcm_AudioFormat _
           (extensible_stereo KSDATAFORMAT_SUBTYPE_IEEE_FLOAT) eq_refl).
Defined.

(** ERROR_NOT_FOUND, 1168, is logged under its own text. *)
Lemma exit_on_failed_logs_win32_code_witness :
  0 < ERROR_NOT_FOUND < 65536
  /\ exit_on_failed narrow win_err_text (HRESULT_FROM_WIN32 ERROR_NOT_FOUND)
                    "" ""
     = ([EError "exit_on_failed   Element not found."], Exited (-1)).
Proof.
  assert (H : 0 < ERROR_NOT_FOUND < 65536) by (unfold ERROR_NOT_FOUND; lia).
  split; [exact H | ].
  exact (exit_on_failed_logs_win32_code narrow win_err_text ERROR_NOT_FOUND
           "" "" H).
Defined.

(** AUDCLNT_E_UNSUPPORTED_FORMAT, 0x88890008, is logged with the line of
    the Win32 error 8. *)
Lemma exit_on_failed_ignores_facility_witness :
  FAILED AUDCLNT_E_UNSUPPORTED_FORMAT = true
  /\ FAILED (HRESULT_FROM_WIN32 ERROR_NOT_ENOUGH_MEMORY) = true
  /\ AUDCLNT_E_UNSUPPORTED_FORMAT mod 65536
     = HRESULT_FROM_WIN32 ERROR_NOT_ENOUGH_MEMORY mod 65536
  /\ exit_on_failed narrow win_err_text AUDCLNT_E_UNSUPPORTED_FORMAT
                    "Failed to initialize audio client for loopback" ""
     = exit_on_failed narrow win_err_text
                      (HRESULT_FROM_WIN32 ERROR_NOT_ENOUGH_MEMORY)
                      "Failed to initialize audio client for loopback" "".
Proof.
  split; [reflexivity | split; [reflexivity | split; [reflexivity | ]]].
  exact (exit_on_failed_ignores_facility narrow win_err_text
           AUDCLNT_E_UNSUPPORTED_FORMAT
           (HRESULT_FROM_WIN32 ERROR_NOT_ENOUGH_MEMORY)
           "Failed to initialize audio client for loopback" ""
           eq_refl eq_refl eq_refl).
Defined.

Lemma get_default_endpoint_returns_iff_witness :
  default_returns (default_is "spk1") = true
  /\ snd (get_default_endpoint narrow narrow win_err_text (default_is "spk1"))
     = Returned "spk1".
Proof.
  split; [reflexivity | ].
  exact (proj1 (proj2 (get_default_endpoint_returns_iff narrow narrow
                         win_err_text (default_is "spk1")))
               eq_refl).
Defined.

Lemma get_endpoint_list_appends_witness :
  snd (get_endpoint_list narrow narrow win_err_text two_speakers_one_mic
                         [("old", "[Playback] Old entry")])
  = Returned (-1, [("old", "[Playback] Old entry");
                   ("spk0", "[Playback] Monitor");
                   ("spk1", "[Playback] Headset");
                   ("mic0", "[Recording] Microphone")])
  /\ List.length [("old", "[Playback] Old entry");
                  ("spk0", "[Playback] Monitor");
                  ("spk1", "[Playback] Headset");
                  ("mic0", "[Recording] Microphone")]
     = (1 + 2 + 1)%nat.
Proof.
  split; [reflexivity | ].
  exact (proj2 (get_endpoint_list_appends narrow narrow win_err_text
                  two_speakers_one_mic [("old", "[Playback] Old entry")]
                  _ _ eq_refl)).
Defined.

Lemma get_endpoint_list_twice_duplicates_witness :
  snd (get_endpoint_list narrow narrow win_err_text two_speakers_one_mic [])
  = Returned (-1, [("spk0", "[Playback] Monitor");
                   ("spk1", "[Playback] Headset");
                   ("mic0", "[Recording] Microphone")])
  /\ snd (get_endpoint_list narrow narrow win_err_text two_speakers_one_mic
            [("spk0", "[Playback] Monitor");
             ("spk1", "[Playback] Headset");
             ("mic0", "[Recording] Microphone")])
     = Returned (-1, [("spk0", "[Playback] Monitor");
                      ("spk1", "[Playback] Headset");
                      ("mic0", "[Recording] Microphone");
                      ("spk0", "[Playback] Monitor");
                      ("spk1", "[Playback] Headset");
                      ("mic0", "[Recording] Microphone")]).
Proof.
  split; [reflexivity | ].
  exact (get_endpoint_list_twice_duplicates narrow narrow win_err_text
           two_speakers_one_mic [] _ _ eq_refl).
Defined.

Lemma get_endpoint_list_index_range_witness :
  snd (get_endpoint_list narrow narrow win_err_text two_speakers_one_mic [])
  = Returned (-1, [("spk0", "[Playback] Monitor");
                   ("spk1", "[Playback] Headset");
                   ("mic0", "[Recording] Microphone")])
  /\ Z.of_nat (pw_count (ew_pass two_speakers_one_mic eCapture)) <= 2^31
  /\ ((-1 = -1 /\
       forall id,
         In id (recording_ids narrow two_speakers_one_mic) ->
         id <> default_id_of narrow
                 (pw_default (ew_pass two_speakers_one_mic eCapture)))
      \/ exists k,
           -1 = Z.of_nat k /\
           (k < pw_count (ew_pass two_speakers_one_mic eCapture))%nat /\
           nth_error (recording_ids narrow two_speakers_one_mic) k
           = Some (default_id_of narrow
                     (pw_default (ew_pass two_speakers_one_mic eCapture))) /\
           forall j, (k < j)%nat ->
             nth_error (recording_ids narrow two_speakers_one_mic) j
             <> Some (default_id_of narrow
                        (pw_default (ew_pass two_speakers_one_mic eCapture)))).
Proof.
  assert (H : Z.of_nat (pw_count (ew_pass two_speakers_one_mic eCapture))
              <= 2^31) by (cbn; lia).
  split; [reflexivity | split; [exact H | ]].
  exact (get_endpoint_list_index_range narrow narrow win_err_text
           two_speakers_one_mic [] _ _ eq_refl H).
Defined.

Lemma get_endpoint_list_first_query_unused_witness :
  default_returns default_absent = true
  /\ default_returns (ew_default two_speakers_one_mic) = true
  /\ snd (get_endpoint_list narrow narrow win_err_text
            (with_first_default two_speakers_one_mic default_absent) [])
     = snd (get_endpoint_list narrow narrow win_err_text
              two_speakers_one_mic []).
Proof.
  split; [reflexivity | split; [reflexivity | ]].
  exact (proj1 (get_endpoint_list_first_query_unused narrow narrow
                  win_err_text two_speakers_one_mic [])
               default_absent eq_refl eq_refl).
Defined.

Lemma stop_called_iff_returns_witness :
  returns_to_caller
    (snd (do_loopback_recording narrow wide win_err_text stopped_early_world
                                fresh_AudioFormat "spk1"))
  = true
  /\ exists t,
       fst (do_loopback_recording narrow wide win_err_text stopped_early_world
                                  fresh_AudioFormat "spk1")
       = t ++ [ECall Stop (cw_hr_stop stopped_early_world)].
Proof.
  split; [reflexivity | ].
  exact (proj2 (stop_called_iff_returns narrow wide win_err_text
                  stopped_early_world fresh_AudioFormat "spk1")
               eq_refl).
Defined.

Lemma capture_loop_returns_iff_witness :
  forallb keeps_running [packet_tick false 0] = true
  /\ wait_ec (timer_failure_tick 995) <> 0
  /\ snd (capture_loop narrow win_err_text 3 pcm16_stereo
            ([packet_tick false 0] ++ timer_failure_tick 995
                                   :: [packet_tick false 480]))
     = Returned tt.
Proof.
  assert (H : wait_ec (timer_failure_tick 995) <> 0) by discriminate.
  split; [reflexivity | split; [exact H | ]].
  apply (proj1 (capture_loop_returns_iff narrow win_err_text 3 pcm16_stereo
                  ([packet_tick false 0] ++ timer_failure_tick 995
                                         :: [packet_tick false 480]))).
  exists [packet_tick false 0], (timer_failure_tick 995),
         [packet_tick false 480].
  split; [reflexivity | split; [reflexivity | left; exact H]].
Defined.

Lemma timer_waits_use_device_period_witness :
  0 <= cw_min_period sub_millisecond_world < 10000
  /\ Z.quot (cw_min_period sub_millisecond_world) REFTIMES_PER_MILLISEC = 0.
Proof.
  assert (H : 0 <= cw_min_period sub_millisecond_world < 10000)
    by (cbn; lia).
  split; [exact H | ].
  exact (proj2 (timer_waits_use_device_period narrow wide win_err_text
                  sub_millisecond_world fresh_AudioFormat "spk1") H).
Defined.

Lemma do_loopback_recording_returns_resolved_format_witness :
  snd (do_loopback_recording narrow wide win_err_text stopped_early_world
                             pcm_AudioFormat "spk1")
  = Returned (mkAudioFormat WAVE_FORMAT_PCM 2 48000 16)
  /\ set_format pcm_AudioFormat (cw_mix_format stopped_early_world)
     = ([], Returned (mkAudioFormat WAVE_FORMAT_PCM 2 48000 16)).
Proof.
  split; [reflexivity | ].
  exact (proj1 (do_loopback_recording_returns_resolved_format narrow wide
                  win_err_text stopped_early_world pcm_AudioFormat _ "spk1"
                  eq_refl)).
Defined.

(** The second speaker is the default playback device; the three
    default-endpoint queries ask for [eRender] and the function returns
    -1. *)
Lemma get_endpoint_list_index_is_recording_local_witness :
  snd (get_endpoint_list narrow narrow win_err_text two_speakers_one_mic [])
  = Returned (-1, [("spk0", "[Playback] Monitor");
                   ("spk1", "[Playback] Headset");
                   ("mic0", "[Recording] Microphone")])
  /\ default_queries
       (fst (get_endpoint_list narrow narrow win_err_text
                               two_speakers_one_mic []))
     = [(eRender, S_OK); (eRender, S_OK); (eRender, S_OK)]
  /\ default_id_of narrow (pw_default (ew_pass two_speakers_one_mic eCapture))
     = "spk1"
  /\ -1 = last_match "spk1" (recording_ids narrow two_speakers_one_mic)
                     0 (-1).
Proof.
  pose proof (get_endpoint_list_index_is_recording_local narrow narrow
                win_err_text two_speakers_one_mic [] _ _ eq_refl)
    as (Hq & _ & Hi & _).
  split; [reflexivity | split; [exact Hq | split; [reflexivity | exact Hi]]].
Defined.
